(** * Verification of the dialogue transcript editor
    (conversational_analysis_editor.py)

    The editor keeps an ordered list of (speaker, text) entries, wraps every
    text into display lines, and edits the list through a cursor.  This file
    embeds the editor's methods as functions on an explicit [Editor] state and
    proves properties of the wrapping loop, the load-time merge pass, the file
    format, the edit operations, the autosave counter and the undo stack. *)

From Stdlib Require Import ZArith Ascii String DecimalString Lia Bool Sorted.
From stdpp Require Import base list strings sorting.

Local Open Scope Z_scope.

(** ** Python values

    Python [int] is [Z]; a Python [str] is a list of characters; a Python
    list is a list indexed by integers, where a negative index counts from
    the end and an index out of range raises [IndexError]. *)

Abbreviation str := (list ascii).

Definition chars (s : string) : str := list_ascii_of_string s.

(** What a call can end with besides returning: an exception that nothing in
    the editor catches, or a loop that never exits. *)
Inductive exn : Type :=
| KeyboardInterrupt
| IndexError
| Hang.

Inductive result (A : Type) : Type :=
| Ret (a : A)
| Raise (e : exn).
Arguments Ret {A} a.
Arguments Raise {A} e.

(** Sequencing: [x ← m; k] runs [k] on what [m] returns and stops at the
    first call that does not return. *)
#[global] Instance result_ret : MRet result := fun _ a => Ret a.
#[global] Instance result_bind : MBind result := fun _ _ k m =>
  match m with
  | Ret a => k a
  | Raise e => Raise e
  end.

Module Py.

Definition len {A} (l : list A) : Z := Z.of_nat (length l).

(** How a slice bound is read against a sequence of length [n]. *)
Definition bound (n i : Z) : Z :=
  if i <? 0 then Z.max 0 (i + n) else Z.min i n.

(** [l[lo:hi]], [l[lo:]] and [l[:hi]]. *)
Definition slice {A} (l : list A) (lo hi : Z) : list A :=
  let lo' := bound (len l) lo in
  let hi' := bound (len l) hi in
  take (Z.to_nat (hi' - lo')) (drop (Z.to_nat lo') l).

Definition slice_from {A} (l : list A) (lo : Z) : list A :=
  drop (Z.to_nat (bound (len l) lo)) l.

Definition slice_to {A} (l : list A) (hi : Z) : list A :=
  take (Z.to_nat (bound (len l) hi)) l.

(** The position a subscript [l[i]] refers to, if any. *)
Definition position {A} (l : list A) (i : Z) : option nat :=
  let j := if i <? 0 then i + len l else i in
  if (0 <=? j) && (j <? len l) then Some (Z.to_nat j) else None.

(** [l[i]] *)
Definition getitem {A} (l : list A) (i : Z) : result A :=
  match position l i with
  | Some n =>
      match l !! n with
      | Some x => Ret x
      | None => Raise IndexError
      end
  | None => Raise IndexError
  end.

(** [l[i] = x] *)
Definition setitem {A} (l : list A) (i : Z) (x : A) : result (list A) :=
  match position l i with
  | Some n => Ret (<[n := x]> l)
  | None => Raise IndexError
  end.

(** [l.pop(i)], keeping only the list that is left. *)
Definition pop {A} (l : list A) (i : Z) : result (list A) :=
  match position l i with
  | Some n => Ret (take n l ++ drop (S n) l)
  | None => Raise IndexError
  end.

(** [l.insert(i, x)]: the index is read as a slice bound. *)
Definition insert {A} (l : list A) (i : Z) (x : A) : list A :=
  let n := Z.to_nat (bound (len l) i) in
  take n l ++ x :: drop n l.

(** [s.rfind(c)] for a one-character [c]: the highest index, or -1. *)
Fixpoint rfind (s : str) (c : ascii) : Z :=
  match s with
  | [] => -1
  | x :: rest =>
      let k := rfind rest c in
      if k =? -1 then (if bool_decide (x = c) then 0 else -1) else k + 1
  end.

(** [c in s] for a one-character [c]. *)
Definition contains (c : ascii) (s : str) : bool := bool_decide (c ∈ s).

(** str(n) *)
Definition str_of_int (n : Z) : string :=
  NilZero.string_of_int (Z.to_int n).

End Py.

(** ** Dialogue entries *)

Record DialogueEntry : Type := mkEntry { speaker : str; text : str }.

Definition set_speaker (e : DialogueEntry) (s : str) : DialogueEntry :=
  {| speaker := s; text := text e |}.

Definition set_text (e : DialogueEntry) (t : str) : DialogueEntry :=
  {| speaker := speaker e; text := t |}.

(** ** wrap_text

    The [while start < len(text)] loop.  [fuel] bounds the number of
    iterations; running out of it is reported as [Hang]. *)
Fixpoint wrap_loop (fuel : nat) (text : str) (max_width start : Z)
    (lines : list (Z * str)) : result (list (Z * str)) :=
  match fuel with
  | O => Raise Hang
  | S fuel =>
      if start <? Py.len text then
        let remaining := Py.len text - start in
        if remaining <=? max_width then
          Ret (lines ++ [(start, Py.slice_from text start)])
        else
          let segment := Py.slice text start (start + max_width + 1) in
          let break_index := Py.rfind segment " "%char in
          if (break_index =? -1) || (break_index =? 0) then
            wrap_loop fuel text max_width (start + max_width)
              (lines ++ [(start, Py.slice text start (start + max_width))])
          else
            wrap_loop fuel text max_width (start + break_index + 1)
              (lines ++ [(start, Py.slice text start (start + break_index))])
      else Ret lines
  end.

(** One more iteration than the text has characters is enough whenever the
    loop exits at all ([wrap_loop_fuel] and [wrap_loop_hangs] below). *)
Definition wrap_text (text : str) (width : Z) : result (list (Z * str)) :=
  let max_width := Z.min width 50 in
  wrap_loop (S (length text)) text max_width 0 [].

(** ** combine_same_speaker_entries *)

Definition punctuation : str := chars ".!?,:;".

(** [current.text and current.text[-1] not in '.!?,:;'] *)
Definition wants_space (t : str) : bool :=
  match last t with
  | None => false
  | Some c => negb (Py.contains c punctuation)
  end.

(** [current.speaker == next_entry.speaker and '[' not in current.text and
     ']' not in current.text and '[' not in next_entry.text and
     ']' not in next_entry.text] *)
Definition same_speaker_no_brackets (current next_entry : DialogueEntry) : bool :=
  bool_decide (speaker current = speaker next_entry)
  && negb (Py.contains "["%char (text current))
  && negb (Py.contains "]"%char (text current))
  && negb (Py.contains "["%char (text next_entry))
  && negb (Py.contains "]"%char (text next_entry)).

(** The entry that replaces [current] when [next_entry] is folded into it. *)
Definition combined (current next_entry : DialogueEntry) : DialogueEntry :=
  let current :=
    if wants_space (text current)
    then set_text current (text current ++ [" "%char])
    else current in
  set_text current (text current ++ text next_entry).

(** One pass through the body of the [while i < len(self.entries) - 1] loop:
    the entries and the index the next pass starts from. *)
Definition combine_step (entries : list DialogueEntry) (i : Z)
    : result (list DialogueEntry * Z) :=
  current ← Py.getitem entries i;
  next_entry ← Py.getitem entries (i + 1);
  if same_speaker_no_brackets current next_entry then
    let combined_length := Py.len (text current) + 1 + Py.len (text next_entry) in
    if combined_length <=? 150 then
      entries ← Py.setitem entries i (combined current next_entry);
      entries ← Py.pop entries (i + 1);
      Ret (entries, i)
    else Ret (entries, i + 1)
  else Ret (entries, i + 1).

Fixpoint combine_loop (fuel : nat) (entries : list DialogueEntry) (i : Z)
    : result (list DialogueEntry) :=
  match fuel with
  | O => Raise Hang
  | S fuel =>
      if i <? Py.len entries - 1 then
        '(entries, i) ← combine_step entries i;
        combine_loop fuel entries i
      else Ret entries
  end.

(** Every pass either removes an entry or advances [i], so the loop exits
    within [length entries] passes ([combine_loop_absorb] below). *)
Definition combine_same_speaker_entries (entries : list DialogueEntry)
    : result (list DialogueEntry) :=
  combine_loop (S (length entries)) entries 0.

(** ** The file format: load_file and save_file *)

Definition TAB : ascii := "009"%char.
Definition LF : ascii := "010"%char.
Definition CR : ascii := "013"%char.

(** What [f.write(f"{entry.speaker}\t{entry.text}\n")] writes for each entry,
    one after the other. *)
Fixpoint written (entries : list DialogueEntry) : str :=
  match entries with
  | [] => []
  | entry :: rest =>
      speaker entry ++ [TAB] ++ text entry ++ [LF] ++ written rest
  end.

(** [open(filename, 'r')] reads in text mode: every ["\r\n"] and every lone
    ["\r"] of the file arrives as ["\n"]. *)
Fixpoint universal_newlines (data : str) : str :=
  match data with
  | [] => []
  | c :: rest =>
      if bool_decide (c = CR) then
        match rest with
        | c' :: rest' =>
            if bool_decide (c' = LF) then LF :: universal_newlines rest'
            else LF :: universal_newlines rest
        | [] => [LF]
        end
      else c :: universal_newlines rest
  end.

(** [for line in f]: the lines of the text, each with its ["\n"] when it has
    one; [line] is the part of the current line read so far. *)
Fixpoint readlines (line : str) (data : str) : list str :=
  match data with
  | [] => match line with [] => [] | _ => [line] end
  | c :: rest =>
      if bool_decide (c = LF) then (line ++ [LF]) :: readlines [] rest
      else readlines (line ++ [c]) rest
  end.

(** [line.rstrip("\n")] *)
Fixpoint rstrip_newline (line : str) : str :=
  match line with
  | [] => []
  | c :: rest =>
      match rstrip_newline rest with
      | [] => if bool_decide (c = LF) then [] else [c]
      | rest' => c :: rest'
      end
  end.

(** [line.split("\t", 1)]: the part before the first tab and, when there is
    a tab, the part after it. *)
Fixpoint split_tab (line : str) : str * option str :=
  match line with
  | [] => ([], None)
  | c :: rest =>
      if bool_decide (c = TAB) then ([], Some rest)
      else let '(before, after) := split_tab rest in (c :: before, after)
  end.

Definition parse_line (line : str) : DialogueEntry :=
  let line := rstrip_newline line in
  match split_tab line with
  | (part0, Some part1) => mkEntry part0 part1
  | (part0, None) => mkEntry part0 []
  end.

(** The entries [load_file] appends for a file holding [data]. *)
Definition loaded (data : str) : list DialogueEntry :=
  map parse_line (readlines [] (universal_newlines data)).

(** ** The editor state *)

Inductive Field : Type := FSpeaker | FContent.

#[global] Instance Field_eq_dec : EqDecision Field.
Proof. solve_decision. Defined.

(** The [cursor_state] dictionary of an undo snapshot. *)
Record CursorState : Type := mkCursorState {
  saved_cursor_display_line : Z;
  saved_cursor_field : Field;
  saved_cursor_pos : Z;
  saved_scroll_offset : Z
}.

(** A file written by [open(path, 'w')]: by [save_file] or by [autosave]. *)
Inductive FileWrite : Type :=
| Saved (path : string) (data : str)
| Autosaved (path : string) (data : str).

(** The attributes of an [Editor] object.  [stdscr] stands for the terminal
    and holds what [getmaxyx()] returns, [(height, width)]; [files] is the list
    of files written so far, oldest first.  The attributes that are never
    assigned after [__init__] are the constants below. *)
Record Editor : Type := mkEditor {
  stdscr : Z * Z;
  filename : option string;
  entries : list DialogueEntry;
  display_lines : list (Z * Z * str);
  cursor_display_line : Z;
  cursor_field : Field;
  cursor_pos : Z;
  status_msg : string;
  scroll_offset : Z;
  keystroke_count : Z;
  undo_stack : list (list DialogueEntry * CursorState);
  initial_load : bool;
  files : list FileWrite
}.

Definition autosave_interval : Z := 10.
Definition ln_width : Z := 6.
Definition sp_width : Z := 15.
Definition col_sep : Z := 1.

Definition with_entries (v : list DialogueEntry) (st : Editor) : Editor :=
  {| stdscr := stdscr st;
     filename := filename st;
     entries := v;
     display_lines := display_lines st;
     cursor_display_line := cursor_display_line st;
     cursor_field := cursor_field st;
     cursor_pos := cursor_pos st;
     status_msg := status_msg st;
     scroll_offset := scroll_offset st;
     keystroke_count := keystroke_count st;
     undo_stack := undo_stack st;
     initial_load := initial_load st;
     files := files st |}.

Definition with_display_lines (v : list (Z * Z * str)) (st : Editor) : Editor :=
  {| stdscr := stdscr st;
     filename := filename st;
     entries := entries st;
     display_lines := v;
     cursor_display_line := cursor_display_line st;
     cursor_field := cursor_field st;
     cursor_pos := cursor_pos st;
     status_msg := status_msg st;
     scroll_offset := scroll_offset st;
     keystroke_count := keystroke_count st;
     undo_stack := undo_stack st;
     initial_load := initial_load st;
     files := files st |}.

Definition with_cursor_display_line (v : Z) (st : Editor) : Editor :=
  {| stdscr := stdscr st;
     filename := filename st;
     entries := entries st;
     display_lines := display_lines st;
     cursor_display_line := v;
     cursor_field := cursor_field st;
     cursor_pos := cursor_pos st;
     status_msg := status_msg st;
     scroll_offset := scroll_offset st;
     keystroke_count := keystroke_count st;
     undo_stack := undo_stack st;
     initial_load := initial_load st;
     files := files st |}.

Definition with_cursor_field (v : Field) (st : Editor) : Editor :=
  {| stdscr := stdscr st;
     filename := filename st;
     entries := entries st;
     display_lines := display_lines st;
     cursor_display_line := cursor_display_line st;
     cursor_field := v;
     cursor_pos := cursor_pos st;
     status_msg := status_msg st;
     scroll_offset := scroll_offset st;
     keystroke_count := keystroke_count st;
     undo_stack := undo_stack st;
     initial_load := initial_load st;
     files := files st |}.

Definition with_cursor_pos (v : Z) (st : Editor) : Editor :=
  {| stdscr := stdscr st;
     filename := filename st;
     entries := entries st;
     display_lines := display_lines st;
     cursor_display_line := cursor_display_line st;
     cursor_field := cursor_field st;
     cursor_pos := v;
     status_msg := status_msg st;
     scroll_offset := scroll_offset st;
     keystroke_count := keystroke_count st;
     undo_stack := undo_stack st;
     initial_load := initial_load st;
     files := files st |}.

Definition with_status_msg (v : string) (st : Editor) : Editor :=
  {| stdscr := stdscr st;
     filename := filename st;
     entries := entries st;
     display_lines := display_lines st;
     cursor_display_line := cursor_display_line st;
     cursor_field := cursor_field st;
     cursor_pos := cursor_pos st;
     status_msg := v;
     scroll_offset := scroll_offset st;
     keystroke_count := keystroke_count st;
     undo_stack := undo_stack st;
     initial_load := initial_load st;
     files := files st |}.

Definition with_scroll_offset (v : Z) (st : Editor) : Editor :=
  {| stdscr := stdscr st;
     filename := filename st;
     entries := entries st;
     display_lines := display_lines st;
     cursor_display_line := cursor_display_line st;
     cursor_field := cursor_field st;
     cursor_pos := cursor_pos st;
     status_msg := status_msg st;
     scroll_offset := v;
     keystroke_count := keystroke_count st;
     undo_stack := undo_stack st;
     initial_load := initial_load st;
     files := files st |}.

Definition with_keystroke_count (v : Z) (st : Editor) : Editor :=
  {| stdscr := stdscr st;
     filename := filename st;
     entries := entries st;
     display_lines := display_lines st;
     cursor_display_line := cursor_display_line st;
     cursor_field := cursor_field st;
     cursor_pos := cursor_pos st;
     status_msg := status_msg st;
     scroll_offset := scroll_offset st;
     keystroke_count := v;
     undo_stack := undo_stack st;
     initial_load := initial_load st;
     files := files st |}.

Definition with_undo_stack (v : list (list DialogueEntry * CursorState)) (st : Editor) : Editor :=
  {| stdscr := stdscr st;
     filename := filename st;
     entries := entries st;
     display_lines := display_lines st;
     cursor_display_line := cursor_display_line st;
     cursor_field := cursor_field st;
     cursor_pos := cursor_pos st;
     status_msg := status_msg st;
     scroll_offset := scroll_offset st;
     keystroke_count := keystroke_count st;
     undo_stack := v;
     initial_load := initial_load st;
     files := files st |}.

Definition with_initial_load (v : bool) (st : Editor) : Editor :=
  {| stdscr := stdscr st;
     filename := filename st;
     entries := entries st;
     display_lines := display_lines st;
     cursor_display_line := cursor_display_line st;
     cursor_field := cursor_field st;
     cursor_pos := cursor_pos st;
     status_msg := status_msg st;
     scroll_offset := scroll_offset st;
     keystroke_count := keystroke_count st;
     undo_stack := undo_stack st;
     initial_load := v;
     files := files st |}.

Definition with_files (v : list FileWrite) (st : Editor) : Editor :=
  {| stdscr := stdscr st;
     filename := filename st;
     entries := entries st;
     display_lines := display_lines st;
     cursor_display_line := cursor_display_line st;
     cursor_field := cursor_field st;
     cursor_pos := cursor_pos st;
     status_msg := status_msg st;
     scroll_offset := scroll_offset st;
     keystroke_count := keystroke_count st;
     undo_stack := undo_stack st;
     initial_load := initial_load st;
     files := v |}.

(** ** reflow *)

Definition content_width (st : Editor) : Z :=
  let '(height, width) := stdscr st in
  width - (ln_width + sp_width + 2 * col_sep).

(** [wrapped = self.wrap_text(entry.text, content_width)] followed by
    [if not wrapped: wrapped = [(0, "")]]. *)
Definition wrapped_lines (text : str) (content_width : Z)
    : result (list (Z * str)) :=
  wrapped ← wrap_text text content_width;
  Ret (match wrapped with
       | [] => [(0, [])]
       | _ => wrapped
       end).

(** The [for entry_idx, entry in enumerate(self.entries)] loop. *)
Fixpoint display_from (entries : list DialogueEntry) (content_width entry_idx : Z)
    : result (list (Z * Z * str)) :=
  match entries with
  | [] => Ret []
  | entry :: rest =>
      wrapped ← wrapped_lines (text entry) content_width;
      lines ← display_from rest content_width (entry_idx + 1);
      Ret (map (λ '(offset, line), (entry_idx, offset, line)) wrapped ++ lines)
  end.

Definition get_current_field_length (st : Editor) : result Z :=
  '(entry_idx, offset, line_text) ←
    Py.getitem (display_lines st) (cursor_display_line st);
  entry ← Py.getitem (entries st) entry_idx;
  Ret (match cursor_field st with
       | FSpeaker => Py.len (speaker entry)
       | FContent => Py.len line_text
       end).

Definition reflow (st : Editor) : result Editor :=
  st ← (if initial_load st then
          combined_entries ← combine_same_speaker_entries (entries st);
          Ret (with_entries combined_entries st)
        else Ret st);
  lines ← display_from (entries st) (content_width st) 0;
  let st := with_display_lines lines st in
  let st :=
    if cursor_display_line st >=? Py.len (display_lines st) then
      with_cursor_pos 0
        (with_cursor_display_line (Py.len (display_lines st) - 1) st)
    else st in
  cur_len ← get_current_field_length st;
  Ret (if cursor_pos st >? cur_len then with_cursor_pos cur_len st else st).

(** ** The undo stack *)

Definition snapshot (st : Editor) : list DialogueEntry * CursorState :=
  (entries st,
   {| saved_cursor_display_line := cursor_display_line st;
      saved_cursor_field := cursor_field st;
      saved_cursor_pos := cursor_pos st;
      saved_scroll_offset := scroll_offset st |}).

(** The stack after [save_undo_state]: [pop(0)] when it holds 100 snapshots
    or more, then [append]. *)
Definition pushed (st : Editor) : list (list DialogueEntry * CursorState) :=
  (if Py.len (undo_stack st) >=? 100 then drop 1 (undo_stack st)
   else undo_stack st) ++ [snapshot st].

Definition save_undo_state (st : Editor) : Editor :=
  with_undo_stack (pushed st) st.

Definition undo (st : Editor) : result Editor :=
  if Py.len (undo_stack st) <=? 1 then
    Ret (with_status_msg "Nothing to undo" st)
  else
    stack ← Py.pop (undo_stack st) (-1);
    let st := with_undo_stack stack st in
    '(entries_copy, cursor_state) ← Py.getitem (undo_stack st) (-1);
    let st := with_entries entries_copy st in
    let st := with_cursor_display_line (saved_cursor_display_line cursor_state) st in
    let st := with_cursor_field (saved_cursor_field cursor_state) st in
    let st := with_cursor_pos (saved_cursor_pos cursor_state) st in
    let st := with_scroll_offset (saved_scroll_offset cursor_state) st in
    st ← reflow st;
    Ret (with_status_msg "Undo successful" st).

(** ** Files *)

(** [os.path.basename]: what follows the last ["/"]. *)
Fixpoint basename (path : str) : str :=
  match path with
  | [] => []
  | c :: rest =>
      if Py.contains "/"%char rest then basename rest
      else if bool_decide (c = "/"%char) then rest
      else c :: rest
  end.

Definition get_swap_filename (st : Editor) : string :=
  match filename st with
  | Some (String c name) =>
      String.append "."
        (String.append (string_of_list_ascii (basename (c :: chars name))) ".swp")
  | _ => ".unnamed.swp"
  end.

(** The file system is taken to accept every write, so the [except] branches
    of [save_file] and [autosave] are not entered. *)
Definition autosave (st : Editor) : Editor :=
  let swap_file := get_swap_filename st in
  let st := with_files (files st ++ [Autosaved swap_file (written (entries st))]) st in
  with_status_msg (String.append "Autosaved to " swap_file) st.

Definition save_file (st : Editor) : Editor :=
  match filename st with
  | None => with_status_msg "No filename provided." st
  | Some path =>
      let st := with_files (files st ++ [Saved path (written (entries st))]) st in
      with_status_msg "File saved." st
  end.

(** ** The cursor *)

(** [for i in range(n - 1, -1, -1): if self.display_lines[i][0] == entry_idx]:
    the index and the length of the nearest line of the entry below index
    [n]. *)
Fixpoint last_line_before (lines : list (Z * Z * str)) (entry_idx : Z) (n : nat)
    : result (option (Z * Z)) :=
  match n with
  | O => Ret None
  | S n =>
      '(e_idx, _, line_text) ← Py.getitem lines (Z.of_nat n);
      if bool_decide (e_idx = entry_idx)
      then Ret (Some (Z.of_nat n, Py.len line_text))
      else last_line_before lines entry_idx n
  end.

(** The first loop of [set_cursor_for_content], over [lines] numbered from
    [i]: the line that holds [target_offset] and the column in it. *)
Fixpoint line_holding (lines : list (Z * Z * str)) (i entry_idx target_offset : Z)
    : option (Z * Z) :=
  match lines with
  | [] => None
  | (e_idx, off, line_text) :: rest =>
      if bool_decide (e_idx = entry_idx)
         && (off <=? target_offset)
         && (target_offset <=? off + Py.len line_text)
      then Some (i, target_offset - off)
      else line_holding rest (i + 1) entry_idx target_offset
  end.

(** [for i, (e_idx, off, _) in enumerate(self.display_lines):
       if e_idx == entry_idx and off == 0: ...; break] *)
Fixpoint first_line_of (lines : list (Z * Z * str)) (i entry_idx : Z) : option Z :=
  match lines with
  | [] => None
  | (e_idx, off, _) :: rest =>
      if bool_decide (e_idx = entry_idx) && (off =? 0) then Some i
      else first_line_of rest (i + 1) entry_idx
  end.

Definition set_cursor_for_content (st : Editor) (entry_idx target_offset : Z)
    : result Editor :=
  found ←
    match line_holding (display_lines st) 0 entry_idx target_offset with
    | Some found => Ret (Some found)
    | None =>
        last_line_before (display_lines st) entry_idx (length (display_lines st))
    end;
  match found with
  | None => Ret st
  | Some (new_line_index, new_cursor_pos) =>
      '(_, _, current_text) ← Py.getitem (display_lines st) new_line_index;
      '(new_line_index, new_cursor_pos) ←
        (if new_cursor_pos =? Py.len current_text then
           let next_index := new_line_index + 1 in
           if next_index <? Py.len (display_lines st) then
             '(next_e_idx, _, _) ← Py.getitem (display_lines st) next_index;
             if bool_decide (next_e_idx = entry_idx) then Ret (next_index, 0)
             else Ret (new_line_index, new_cursor_pos)
           else Ret (new_line_index, new_cursor_pos)
         else Ret (new_line_index, new_cursor_pos));
      Ret (with_cursor_pos new_cursor_pos
             (with_cursor_field FContent
                (with_cursor_display_line new_line_index st)))
  end.

(** ** Edit operations *)

Definition handle_insert (char : ascii) (st : Editor) : result Editor :=
  let st := save_undo_state st in
  '(entry_idx, offset, _) ← Py.getitem (display_lines st) (cursor_display_line st);
  entry ← Py.getitem (entries st) entry_idx;
  match cursor_field st with
  | FSpeaker =>
      let new_speaker :=
        Py.slice_to (speaker entry) (cursor_pos st) ++ [char]
        ++ Py.slice_from (speaker entry) (cursor_pos st) in
      new_entries ← Py.setitem (entries st) entry_idx (set_speaker entry new_speaker);
      let st := with_entries new_entries st in
      let st := with_cursor_pos (cursor_pos st + 1) st in
      reflow st
  | FContent =>
      let old_actual_offset := offset + cursor_pos st in
      let new_text :=
        Py.slice_to (text entry) old_actual_offset ++ [char]
        ++ Py.slice_from (text entry) old_actual_offset in
      new_entries ← Py.setitem (entries st) entry_idx (set_text entry new_text);
      let st := with_entries new_entries st in
      let new_actual_offset := old_actual_offset + 1 in
      st ← reflow st;
      set_cursor_for_content st entry_idx new_actual_offset
  end.

(** The content-field part of [handle_backspace], after the snapshot. *)
Definition backspace_content (st : Editor) : result Editor :=
  '(entry_idx, offset, _) ← Py.getitem (display_lines st) (cursor_display_line st);
  entry ← Py.getitem (entries st) entry_idx;
  let actual_offset := offset + cursor_pos st in
  (* at the beginning of a wrapped line: only move the cursor *)
  found ←
    (if (cursor_pos st =? 0) && (offset >? 0) then
       last_line_before (display_lines st) entry_idx
         (Z.to_nat (cursor_display_line st))
     else Ret None);
  match found with
  | Some (i, line_length) =>
      Ret (with_cursor_pos line_length (with_cursor_display_line i st))
  | None =>
      (* at the beginning of an entry that is not the first *)
      joined ←
        (if (cursor_pos st =? 0) && (offset =? 0) && (entry_idx >? 0) then
           prev_entry ← Py.getitem (entries st) (entry_idx - 1);
           if Py.len (text prev_entry) + Py.len (text entry) <=? content_width st * 3
           then
             let prev_text_len := Py.len (text prev_entry) in
             new_entries ←
               Py.setitem (entries st) (entry_idx - 1)
                 (set_text prev_entry (text prev_entry ++ text entry));
             new_entries ← Py.pop new_entries entry_idx;
             st ← reflow (with_entries new_entries st);
             st ← set_cursor_for_content st (entry_idx - 1) prev_text_len;
             Ret (Some st)
           else Ret None
         else Ret None);
      match joined with
      | Some st => Ret st
      | None =>
          if actual_offset >? 0 then
            let new_text :=
              Py.slice_to (text entry) (actual_offset - 1)
              ++ Py.slice_from (text entry) actual_offset in
            new_entries ← Py.setitem (entries st) entry_idx (set_text entry new_text);
            let new_actual_offset := actual_offset - 1 in
            st ← reflow (with_entries new_entries st);
            set_cursor_for_content st entry_idx new_actual_offset
          else Ret st
      end
  end.

Definition handle_backspace (st : Editor) : result Editor :=
  let st := save_undo_state st in
  match cursor_field st with
  | FSpeaker =>
      '(entry_idx, _, _) ← Py.getitem (display_lines st) (cursor_display_line st);
      entry ← Py.getitem (entries st) entry_idx;
      st ←
        (if cursor_pos st >? 0 then
           let new_speaker :=
             Py.slice_to (speaker entry) (cursor_pos st - 1)
             ++ Py.slice_from (speaker entry) (cursor_pos st) in
           new_entries ←
             Py.setitem (entries st) entry_idx (set_speaker entry new_speaker);
           Ret (with_cursor_pos (cursor_pos st - 1) (with_entries new_entries st))
         else Ret st);
      reflow st
  | FContent => backspace_content st
  end.

(** The [if offset > 0] block shared by the two moves: cut the entry at
    [offset] and insert the second part as an entry of its own. *)
Definition split_entry_at (entries : list DialogueEntry) (entry_idx offset : Z)
    : result (list DialogueEntry) :=
  entry ← Py.getitem entries entry_idx;
  let first_part := Py.slice_to (text entry) offset in
  let second_part := Py.slice_from (text entry) offset in
  new_entries ← Py.setitem entries entry_idx (set_text entry first_part);
  let new_entry := mkEntry (speaker entry) second_part in
  Ret (Py.insert new_entries (entry_idx + 1) new_entry).

(** [self.entries[i], self.entries[j] = self.entries[j], self.entries[i]] *)
Definition swap_entries (entries : list DialogueEntry) (i j : Z)
    : result (list DialogueEntry) :=
  entry_j ← Py.getitem entries j;
  entry_i ← Py.getitem entries i;
  new_entries ← Py.setitem entries i entry_j;
  Py.setitem new_entries j entry_i.

Definition follow_entry (st : Editor) (entry_idx : Z) : Editor :=
  match first_line_of (display_lines st) 0 entry_idx with
  | Some i => with_cursor_display_line i st
  | None => st
  end.

(** [move_entry_up] after the snapshot. *)
Definition move_entry_up_body (st : Editor) : result Editor :=
  '(entry_idx, offset, _) ← Py.getitem (display_lines st) (cursor_display_line st);
  '(st, entry_idx) ←
    (if offset >? 0 then
       new_entries ← split_entry_at (entries st) entry_idx offset;
       Ret (with_entries new_entries st, entry_idx + 1)
     else Ret (st, entry_idx));
  if entry_idx <=? 0 then Ret (with_status_msg "Already at the top" st)
  else
    new_entries ← swap_entries (entries st) entry_idx (entry_idx - 1);
    st ← reflow (with_entries new_entries st);
    let st := follow_entry st (entry_idx - 1) in
    Ret (with_status_msg "Moved entry up" st).

Definition move_entry_up (st : Editor) : result Editor :=
  move_entry_up_body (save_undo_state st).

(** [move_entry_down] after the snapshot. *)
Definition move_entry_down_body (st : Editor) : result Editor :=
  '(entry_idx, offset, _) ← Py.getitem (display_lines st) (cursor_display_line st);
  '(st, entry_idx) ←
    (if offset >? 0 then
       new_entries ← split_entry_at (entries st) entry_idx offset;
       let entry_idx := entry_idx + 1 in
       st ← reflow (with_entries new_entries st);
       Ret (follow_entry st entry_idx, entry_idx)
     else Ret (st, entry_idx));
  if entry_idx >=? Py.len (entries st) - 1 then
    Ret (with_status_msg "Already at the bottom" st)
  else
    new_entries ← swap_entries (entries st) entry_idx (entry_idx + 1);
    st ← reflow (with_entries new_entries st);
    let st := follow_entry st (entry_idx + 1) in
    Ret (with_status_msg "Moved entry down" st).

Definition move_entry_down (st : Editor) : result Editor :=
  move_entry_down_body (save_undo_state st).

Definition split_line_at_cursor (st : Editor) : result Editor :=
  '(entry_idx, offset, _) ← Py.getitem (display_lines st) (cursor_display_line st);
  entry ← Py.getitem (entries st) entry_idx;
  let actual_pos := offset + cursor_pos st in
  match cursor_field st with
  | FSpeaker => Ret (with_status_msg "Can only split when cursor is in content" st)
  | FContent =>
      let first_part := Py.slice_to (text entry) actual_pos in
      let second_part := Py.slice_from (text entry) actual_pos in
      new_entries ← Py.setitem (entries st) entry_idx (set_text entry first_part);
      let new_entry := mkEntry (speaker entry) second_part in
      let new_entries := Py.insert new_entries (entry_idx + 1) new_entry in
      st ← reflow (with_entries new_entries st);
      let st :=
        match first_line_of (display_lines st) 0 (entry_idx + 1) with
        | Some i => with_cursor_pos 0 (with_cursor_display_line i st)
        | None => st
        end in
      Ret (with_status_msg
             (String.append "Split line at cursor (pos "
                (String.append (Py.str_of_int actual_pos) ")")) st)
  end.

(** ** process_key *)

(** Key codes of the [curses] module (the values ncurses gives them). *)
Definition KEY_DOWN : Z := 258.
Definition KEY_UP : Z := 259.
Definition KEY_LEFT : Z := 260.
Definition KEY_RIGHT : Z := 261.
Definition KEY_HOME : Z := 262.
Definition KEY_BACKSPACE : Z := 263.
Definition KEY_DC : Z := 330.
Definition KEY_NPAGE : Z := 338.
Definition KEY_PPAGE : Z := 339.
Definition KEY_ENTER : Z := 343.
Definition KEY_END : Z := 360.

(** [chr(key)] for a key in 0..255. *)
Definition chr (key : Z) : ascii := ascii_of_N (Z.to_N key).

(** The first statements of [process_key]: clear the status, count the
    keystroke, autosave on every [autosave_interval]-th one. *)
Definition count_keystroke (st : Editor) : Editor :=
  let st := with_status_msg "" st in
  let st := with_keystroke_count (keystroke_count st + 1) st in
  if keystroke_count st >=? autosave_interval then
    let st := autosave st in
    with_keystroke_count 0 st
  else st.

(** The [\] shortcut of the speaker field. *)
Definition clear_speaker (st : Editor) : result Editor :=
  let st := save_undo_state st in
  '(entry_idx, _, _) ← Py.getitem (display_lines st) (cursor_display_line st);
  entry ← Py.getitem (entries st) entry_idx;
  new_entries ← Py.setitem (entries st) entry_idx (set_speaker entry []);
  reflow (with_cursor_pos 0 (with_entries new_entries st)).

(** Scrolling after the cursor moved down a line. *)
Definition scroll_down_if_needed (st : Editor) : Editor :=
  let '(height, _) := stdscr st in
  let max_visible := height - 1 in
  if cursor_display_line st >=? scroll_offset st + max_visible then
    with_scroll_offset (cursor_display_line st - max_visible + 1) st
  else st.

(** [process_key] after the keystroke has been counted. *)
Definition dispatch_key (key : Z) (st : Editor) : result Editor :=
  if (key <? 32) && negb (key =? 9) && negb (key =? 10) then
    Ret (with_status_msg
           (String.append "Control key pressed: ASCII " (Py.str_of_int key)) st)
  else if key =? 28 then
    Ret (with_status_msg "Ctrl+\ pressed (ignored)" st)
  else if (key =? 92) && bool_decide (cursor_field st = FSpeaker) then
    clear_speaker st
  else if key =? 96 then Ret (save_file st)
  else if key =? 126 then Raise KeyboardInterrupt
  else if key =? KEY_DC then undo st
  else if key =? KEY_HOME then Ret (with_cursor_pos 0 st)
  else if (key =? KEY_END) && bool_decide (cursor_field st = FContent) then
    cur_len ← get_current_field_length st;
    Ret (with_cursor_pos cur_len st)
  else if key =? KEY_PPAGE then move_entry_up st
  else if key =? KEY_NPAGE then move_entry_down st
  else if key =? 9 then
    let st :=
      with_cursor_field
        (match cursor_field st with FContent => FSpeaker | FSpeaker => FContent end)
        st in
    Ret (with_cursor_pos 0 st)
  else if key =? 19 then Ret (save_file st)
  else if key =? 17 then Raise KeyboardInterrupt
  else if (key =? 10) || (key =? KEY_ENTER) then
    match cursor_field st with
    | FContent => split_line_at_cursor (save_undo_state st)
    | FSpeaker => Ret st
    end
  else if key =? KEY_UP then
    if cursor_display_line st >? 0 then
      let st := with_cursor_display_line (cursor_display_line st - 1) st in
      cur_len ← get_current_field_length st;
      let st := with_cursor_pos (Z.min (cursor_pos st) cur_len) st in
      Ret (if cursor_display_line st <? scroll_offset st
           then with_scroll_offset (cursor_display_line st) st
           else st)
    else Ret st
  else if key =? KEY_DOWN then
    if cursor_display_line st <? Py.len (display_lines st) - 1 then
      let st := with_cursor_display_line (cursor_display_line st + 1) st in
      cur_len ← get_current_field_length st;
      let st := with_cursor_pos (Z.min (cursor_pos st) cur_len) st in
      Ret (scroll_down_if_needed st)
    else Ret st
  else if key =? KEY_LEFT then
    if cursor_pos st >? 0 then Ret (with_cursor_pos (cursor_pos st - 1) st)
    else
      match cursor_field st with
      | FContent =>
          '(current_entry_idx, _, _) ←
            Py.getitem (display_lines st) (cursor_display_line st);
          found ← last_line_before (display_lines st) current_entry_idx
                    (Z.to_nat (cursor_display_line st));
          Ret (match found with
               | Some (i, line_length) =>
                   with_cursor_pos line_length (with_cursor_display_line i st)
               | None => st
               end)
      | FSpeaker => Ret st
      end
  else if key =? KEY_RIGHT then
    cur_len ← get_current_field_length st;
    if cursor_pos st <? cur_len then Ret (with_cursor_pos (cursor_pos st + 1) st)
    else if bool_decide (cursor_field st = FContent)
            && (cursor_display_line st <? Py.len (display_lines st) - 1) then
      _ ← Py.getitem (display_lines st) (cursor_display_line st);
      _ ← Py.getitem (display_lines st) (cursor_display_line st + 1);
      let st := with_cursor_display_line (cursor_display_line st + 1) st in
      let st := with_cursor_pos 0 st in
      Ret (scroll_down_if_needed st)
    else Ret st
  else if (key =? KEY_BACKSPACE) || (key =? 127) then handle_backspace st
  else if (32 <=? key) && (key <=? 126)
          && negb (bool_decide (chr key ∈ ["\"%char; "`"%char; "~"%char])) then
    handle_insert (chr key) st
  else Ret st.

Definition process_key (key : Z) (st : Editor) : result Editor :=
  dispatch_key key (count_keystroke st).

(** The [while True] loop of [main] over the keys that [getch] delivers. *)
Fixpoint run (keys : list Z) (st : Editor) : result Editor :=
  match keys with
  | [] => Ret st
  | key :: rest => st ← process_key key st; run rest st
  end.

(** ** Editor.__init__

    [screen] is the size of the terminal; [data] is the content of the file
    named [filename], when it can be opened.  [blank] holds the attributes
    as the first statements of [__init__] set them. *)
Definition blank (screen : Z * Z) (filename : option string) : Editor :=
  {| stdscr := screen;
     filename := filename;
     entries := [];
     display_lines := [];
     cursor_display_line := 0;
     cursor_field := FContent;
     cursor_pos := 0;
     status_msg := "";
     scroll_offset := 0;
     keystroke_count := 0;
     undo_stack := [];
     initial_load := true;
     files := [] |}.

Definition init (screen : Z * Z) (filename : option string) (data : option str)
    : result Editor :=
  let truthy := match filename with Some (String _ _) => true | _ => false end in
  let st := blank screen filename in
  let st :=
    if truthy then
      match data with
      | Some data => with_entries (entries st ++ loaded data) st
      | None => with_status_msg "Error loading file" st
      end
    else with_entries (entries st ++ [mkEntry (chars "Speaker") []]) st in
  st ← reflow st;
  let st := with_initial_load false st in
  Ret (save_undo_state st).

(** ** The operations that push an undo snapshot

    [Split] is the Enter key in the content field:
    [self.save_undo_state(); self.split_line_at_cursor()]. *)
Inductive EditOp : Type :=
| Insert (char : ascii)
| Backspace
| Split
| MoveUp
| MoveDown
| ClearSpeaker.

Definition perform (op : EditOp) (st : Editor) : result Editor :=
  match op with
  | Insert char => handle_insert char st
  | Backspace => handle_backspace st
  | Split => split_line_at_cursor (save_undo_state st)
  | MoveUp => move_entry_up st
  | MoveDown => move_entry_down st
  | ClearSpeaker => clear_speaker st
  end.

(** * Properties *)

(** ** Display segments *)

(** Where the text continues after the segments [segs]: at the offset of the
    first of them, or at [total] when there is none. *)
Definition start_of (segs : list (Z * str)) (total : Z) : Z :=
  match segs with
  | [] => total
  | (offset, _) :: _ => offset
  end.

(** [tiles text pos segs]: the segments cover [text] from [pos] to its end.
    Each one is the substring of [text] at its offset, and the next one
    starts where it ends, or one character later when that character is a
    space. *)
Fixpoint tiles (text : str) (pos : Z) (segs : list (Z * str)) : Prop :=
  match segs with
  | [] => pos = Py.len text
  | (offset, line) :: rest =>
      let stop := offset + Py.len line in
      let next := start_of rest (Py.len text) in
      offset = pos
      ∧ line = Py.slice text offset stop
      ∧ (next = stop ∨ (next = stop + 1 ∧ Py.getitem text stop = Ret " "%char))
      ∧ tiles text next rest
  end.

(** The segment texts put together again, with one space wherever the next
    segment starts one character after the end of the previous one. *)
Fixpoint rejoin (total : Z) (segs : list (Z * str)) : str :=
  match segs with
  | [] => []
  | (offset, line) :: rest =>
      line
      ++ (if start_of rest total =? offset + Py.len line + 1 then [" "%char] else [])
      ++ rejoin total rest
  end.

Definition faithful_segments (text : str) (segs : list (Z * str)) : Prop :=
  StronglySorted Z.lt segs.*1
  ∧ tiles text 0 segs
  ∧ rejoin (Py.len text) segs = text.

(** ** The merge pass *)

(** The two tests that guard a merge in [combine_step], as one. *)
Definition mergeable (current next_entry : DialogueEntry) : bool :=
  same_speaker_no_brackets current next_entry
  && (Py.len (text current) + 1 + Py.len (text next_entry) <=? 150).

(** The same tests as a proposition. *)
Definition eligible (a b : DialogueEntry) : Prop :=
  speaker a = speaker b
  ∧ ("["%char ∉ text a) ∧ ("]"%char ∉ text a)
  ∧ ("["%char ∉ text b) ∧ ("]"%char ∉ text b)
  ∧ Py.len (text a) + 1 + Py.len (text b) ≤ 150.

(** A text that is not empty and whose last character is none of
    [.], [!], [?], [,], [:], [;]. *)
Definition ends_open (t : str) : Prop :=
  match last t with
  | Some c => c ∉ chars ".!?,:;"
  | None => False
  end.

#[global] Instance eligible_dec a b : Decision (eligible a b).
Proof. unfold eligible. apply _. Defined.

#[global] Instance ends_open_dec t : Decision (ends_open t).
Proof. unfold ends_open. destruct (last t); apply _. Defined.

(** Following the spec's words: a text that is not empty and whose last
    character is none of [.], [!], [,], [:], [;]. *)
Definition spec_ends_open (t : str) : Prop :=
  match last t with
  | Some c => c ∉ chars ".!,:;"
  | None => False
  end.

(** The pass as a recursion on the list: [current] takes in the entries
    that follow it for as long as the guard holds, then the pass moves on. *)
Fixpoint absorb (current : DialogueEntry) (rest : list DialogueEntry)
    : list DialogueEntry :=
  match rest with
  | [] => [current]
  | next_entry :: rest =>
      if mergeable current next_entry
      then absorb (combined current next_entry) rest
      else current :: absorb next_entry rest
  end.

(** No two neighbours pass the guard. *)
Fixpoint stable (entries : list DialogueEntry) : Prop :=
  match entries with
  | a :: rest =>
      match rest with
      | b :: _ => mergeable a b = false
      | [] => True
      end ∧ stable rest
  | [] => True
  end.

(** ** Files *)

(** A field that holds no tab, no line feed and no carriage return. *)
Definition clean (field : str) : Prop :=
  (TAB ∉ field) ∧ (LF ∉ field) ∧ (CR ∉ field).

Definition clean_entries (entries : list DialogueEntry) : Prop :=
  Forall (λ entry, clean (speaker entry) ∧ clean (text entry)) entries.

(** ** What an operation leaves alone *)

(** [frame st st']: the terminal, the file name, the load flag, the undo
    stack, the keystroke counter and the files written are the same in
    both states. *)
Definition frame (st st' : Editor) : Prop :=
  stdscr st' = stdscr st
  ∧ filename st' = filename st
  ∧ initial_load st' = initial_load st
  ∧ undo_stack st' = undo_stack st
  ∧ keystroke_count st' = keystroke_count st
  ∧ files st' = files st.

(** ** States in which the display is up to date *)

(** [displayed st]: the display lines are those [reflow] computes for the
    entries at the current width. *)
Definition displayed (st : Editor) : Prop :=
  display_from (entries st) (content_width st) 0 = Ret (display_lines st).

(** [settled st]: the display lines are those of the entries at the current
    width, the cursor is on one of them (or on one counted from the end) and
    not beyond the end of its field. *)
Definition settled (st : Editor) : Prop :=
  displayed st
  ∧ cursor_display_line st < Py.len (display_lines st)
  ∧ ∃ cur_len, get_current_field_length st = Ret cur_len ∧ cursor_pos st ≤ cur_len.

(** [ready st]: a state as the editor keeps it between two keys, on a
    terminal wide enough to show text: loading is over, the content column is
    at least one character wide, and the cursor is on a line of an up-to-date
    display. *)
Definition ready (st : Editor) : Prop :=
  initial_load st = false
  ∧ 1 ≤ content_width st
  ∧ 0 ≤ cursor_display_line st
  ∧ settled st.

(** ** Autosave *)

(** How many of the files written were written by [autosave]. *)
Fixpoint autosave_count (log : list FileWrite) : Z :=
  match log with
  | [] => 0
  | Autosaved _ _ :: rest => 1 + autosave_count rest
  | Saved _ _ :: rest => autosave_count rest
  end.

(** ** Sessions used as examples *)

(** The session [main] starts without a file on a terminal of 24 lines and
    80 columns. *)
Definition untitled_session : Editor :=
  Eval vm_compute in
    match init (24, 80) None None with
    | Ret st => st
    | Raise _ => blank (24, 80) None
    end.

(** A session on a file with the one line ["A\thello world"], on a terminal
    29 columns wide, where the text takes two display lines. *)
Definition narrow_session : Editor :=
  Eval vm_compute in
    match init (24, 29) (Some "t.tsv"%string)
            (Some (chars "A" ++ [TAB] ++ chars "hello world" ++ [LF])) with
    | Ret st => st
    | Raise _ => blank (24, 29) None
    end.

(** ** What the merge pass keeps *)

(** The texts of the entries, one after the other. *)
Fixpoint all_text (entries : list DialogueEntry) : str :=
  match entries with
  | [] => []
  | entry :: rest => text entry ++ all_text rest
  end.

Definition without_spaces (s : str) : str :=
  filter (λ c, c ≠ " "%char) s.

(** ** Entries that a file can hold *)

(** An entry whose speaker holds no tab and whose fields hold no line feed
    and no carriage return; its text may hold tabs. *)
Definition storable (entry : DialogueEntry) : Prop :=
  (TAB ∉ speaker entry) ∧ (LF ∉ speaker entry) ∧ (CR ∉ speaker entry)
  ∧ (LF ∉ text entry) ∧ (CR ∉ text entry).

(** The content of a file made of the given lines, each followed by a line
    feed. *)
Fixpoint tabless_file (lines : list str) : str :=
  match lines with
  | [] => []
  | line :: rest => line ++ [LF] ++ tabless_file rest
  end.

(** ** The order of the display lines *)

(** [line_before a b]: line [a] belongs to an earlier entry than line [b], or
    to the same entry at a smaller offset. *)
Definition line_before (a b : Z * Z * str) : Prop :=
  a.1.1 < b.1.1 ∨ (a.1.1 = b.1.1 ∧ a.1.2 < b.1.2).

(** * Python primitives *)
Section py_lemmas.
Context {A : Type}.
Implicit Types l : list A.

Lemma len_nonneg l : 0 ≤ Py.len l.
Proof. unfold Py.len. lia. Qed.

Lemma len_app l1 l2 : Py.len (l1 ++ l2) = Py.len l1 + Py.len l2.
Proof. unfold Py.len. rewrite length_app. lia. Qed.

Lemma bound_inside n i : 0 ≤ i ≤ n → Py.bound n i = i.
Proof. intros. unfold Py.bound. destruct (Z.ltb_spec i 0); lia. Qed.

Lemma slice_inside l lo hi :
  0 ≤ lo ≤ hi → hi ≤ Py.len l →
  Py.slice l lo hi = take (Z.to_nat (hi - lo)) (drop (Z.to_nat lo) l).
Proof.
  intros. unfold Py.slice. cbv zeta.
  rewrite !bound_inside by lia. done.
Qed.

Lemma slice_from_inside l lo :
  0 ≤ lo ≤ Py.len l → Py.slice_from l lo = drop (Z.to_nat lo) l.
Proof. intros. unfold Py.slice_from. rewrite bound_inside by lia. done. Qed.

Lemma slice_to_inside l hi :
  0 ≤ hi ≤ Py.len l → Py.slice_to l hi = take (Z.to_nat hi) l.
Proof. intros. unfold Py.slice_to. rewrite bound_inside by lia. done. Qed.

Lemma len_slice_inside l lo hi :
  0 ≤ lo ≤ hi → hi ≤ Py.len l → Py.len (Py.slice l lo hi) = hi - lo.
Proof.
  intros. rewrite slice_inside by done. unfold Py.len in *.
  rewrite length_take, length_drop. lia.
Qed.

Lemma position_inside l i :
  0 ≤ i < Py.len l → Py.position l i = Some (Z.to_nat i).
Proof.
  intros. unfold Py.position.
  destruct (Z.ltb_spec i 0); [lia|].
  destruct (Z.leb_spec 0 i); [|lia].
  destruct (Z.ltb_spec i (Py.len l)); [|lia]. done.
Qed.

Lemma position_lt l i n : Py.position l i = Some n → (n < length l)%nat.
Proof.
  unfold Py.position, Py.len. intros H.
  destruct (_ && _) eqn:E in H; [|done]. injection H as <-.
  apply andb_true_iff in E as [E1 E2].
  apply Z.leb_le in E1. apply Z.ltb_lt in E2. destruct (i <? 0); lia.
Qed.

Lemma position_nonneg l i n :
  0 ≤ i → Py.position l i = Some n → n = Z.to_nat i ∧ i < Py.len l.
Proof.
  unfold Py.position. intros Hi H.
  destruct (Z.ltb_spec i 0); [lia|].
  destruct (Z.leb_spec 0 i); [|lia].
  destruct (Z.ltb_spec i (Py.len l)); simpl in H; [|done].
  injection H as <-. done.
Qed.

Lemma getitem_inside l i x :
  0 ≤ i → l !! Z.to_nat i = Some x → Py.getitem l i = Ret x.
Proof.
  intros Hi Hx. unfold Py.getitem.
  rewrite position_inside.
  - by rewrite Hx.
  - apply lookup_lt_Some in Hx. unfold Py.len. lia.
Qed.

Lemma getitem_Ret l i x :
  Py.getitem l i = Ret x → ∃ n, Py.position l i = Some n ∧ l !! n = Some x.
Proof.
  unfold Py.getitem. destruct (Py.position l i) as [n|]; [|done].
  destruct (l !! n) eqn:E; [|done]. intros [= ->]. eauto.
Qed.

End py_lemmas.

Lemma rfind_cases (s : str) (c : ascii) :
  (Py.rfind s c = -1 ∧ c ∉ s)
  ∨ (0 ≤ Py.rfind s c < Py.len s ∧ s !! Z.to_nat (Py.rfind s c) = Some c).
Proof.
  induction s as [|x s IH]; simpl.
  - left. split; [done|]. apply not_elem_of_nil.
  - unfold Py.len in *. simpl length.
    destruct IH as [[-> Hn]|[Hr Hl]].
    + simpl. destruct (bool_decide_reflect (x = c)) as [->|Hx].
      * right. split; [lia|done].
      * left. split; [done|]. rewrite elem_of_cons. intros [?|?]; congruence.
    + destruct (Z.eqb_spec (Py.rfind s c) (-1)); [lia|].
      right. split; [lia|].
      replace (Z.to_nat (Py.rfind s c + 1)) with (S (Z.to_nat (Py.rfind s c))) by lia.
      done.
Qed.

(** * wrap_text *)

Lemma tiles_bounds text pos segs :
  tiles text pos segs → pos ≤ Py.len text.
Proof.
  revert pos. induction segs as [|[o line] rest IH]; simpl; intros pos.
  - lia.
  - intros (-> & _ & Hnext & Hrest). apply IH in Hrest.
    pose proof (len_nonneg line). lia.
Qed.

Lemma rejoin_tiles text pos segs :
  0 ≤ pos → tiles text pos segs →
  rejoin (Py.len text) segs = drop (Z.to_nat pos) text.
Proof.
  revert pos. induction segs as [|[o line] rest IH]; simpl; intros pos Hpos.
  - intros ->. unfold Py.len. rewrite Nat2Z.id. by rewrite drop_all.
  - intros (-> & Hline & Hnext & Hrest).
    pose proof (len_nonneg line) as Hl.
    pose proof (tiles_bounds _ _ _ Hrest) as Hb.
    assert (pos + Py.len line ≤ start_of rest (Py.len text)) as Hle
      by (destruct Hnext as [->|[-> _]]; lia).
    assert (0 ≤ start_of rest (Py.len text)) as Hnn by lia.
    rewrite (IH _ Hnn Hrest).
    assert (pos + Py.len line ≤ Py.len text) as Hstop by lia.
    rewrite slice_inside in Hline by lia.
    replace (pos + Py.len line - pos) with (Py.len line) in Hline by lia.
    rewrite <- (take_drop (Z.to_nat (Py.len line)) (drop (Z.to_nat pos) text)).
    rewrite <- Hline. f_equal.
    rewrite drop_drop.
    destruct Hnext as [->|[-> Hsp]].
    + destruct (Z.eqb_spec (pos + Py.len line) (pos + Py.len line + 1)); [lia|].
      simpl. f_equal. lia.
    + rewrite Z.eqb_refl. simpl.
      apply getitem_Ret in Hsp as (n & Hn & Hsp).
      apply position_nonneg in Hn as [-> Hlt]; [|lia].
      replace (Z.to_nat pos + Z.to_nat (Py.len line))%nat
        with (Z.to_nat (pos + Py.len line)) by lia.
      rewrite (drop_S _ _ _ Hsp). f_equal. f_equal. lia.
Qed.

Lemma tiles_start text pos segs :
  tiles text pos segs → start_of segs (Py.len text) = pos.
Proof. destruct segs as [|[o line] rest]; simpl; [done|]. by intros (-> & _). Qed.

Lemma wrap_loop_tiles text m :
  1 ≤ m → ∀ fuel start lines,
  0 ≤ start ≤ Py.len text →
  (Z.to_nat (Py.len text - start) < fuel)%nat →
  ∃ segs,
    wrap_loop fuel text m start lines = Ret (lines ++ segs)
    ∧ tiles text start segs
    ∧ StronglySorted Z.lt segs.*1
    ∧ Forall (Z.le start) segs.*1.
Proof.
  intros Hm. induction fuel as [|fuel IH]; intros start lines Hstart Hfuel; [lia|].
  simpl. destruct (Z.ltb_spec start (Py.len text)) as [Hlt|Hge].
  - destruct (Z.leb_spec (Py.len text - start) m) as [Hfit|Hlong].
    + (* the rest fits on one line *)
      eexists [_]. split; [done|]. simpl.
      rewrite slice_from_inside by lia.
      assert (Py.len (drop (Z.to_nat start) text) = Py.len text - start) as Hlen
        by (unfold Py.len in *; rewrite length_drop; lia).
      rewrite Hlen. repeat split.
      * rewrite slice_inside by lia. rewrite take_ge; [done|].
        rewrite length_drop. unfold Py.len in *. lia.
      * left. lia.
      * repeat constructor.
      * repeat constructor. lia.
    + set (segment := Py.slice text start (start + m + 1)).
      assert (Py.len segment = m + 1) as Hseg
        by (unfold segment; rewrite len_slice_inside; lia).
      destruct (rfind_cases segment " "%char) as [[Hr _]|[Hr Hsp]].
      * (* no space in the window *)
        rewrite Hr. simpl.
        destruct (IH (start + m) (lines ++ [(start, Py.slice text start (start + m))]))
          as (segs & -> & Htiles & Hsorted & Hall); [lia|lia|].
        exists ((start, Py.slice text start (start + m)) :: segs).
        rewrite <- app_assoc. split; [done|]. simpl.
        rewrite len_slice_inside by lia.
        replace (start + (start + m - start)) with (start + m) by lia.
        rewrite (tiles_start _ _ _ Htiles). repeat split; auto.
        -- constructor; [done|]. eapply Forall_impl; [exact Hall|]. simpl. lia.
        -- constructor; [lia|]. eapply Forall_impl; [exact Hall|]. simpl. lia.
      * destruct (Z.eqb_spec (Py.rfind segment " ") (-1)) as [?|_]; [lia|].
        destruct (Z.eqb_spec (Py.rfind segment " ") 0) as [H0|Hpos]; simpl.
        -- (* the only space is the first character of the window *)
           destruct (IH (start + m) (lines ++ [(start, Py.slice text start (start + m))]))
             as (segs & -> & Htiles & Hsorted & Hall); [lia|lia|].
           exists ((start, Py.slice text start (start + m)) :: segs).
           rewrite <- app_assoc. split; [done|]. simpl.
           rewrite len_slice_inside by lia.
           replace (start + (start + m - start)) with (start + m) by lia.
           rewrite (tiles_start _ _ _ Htiles). repeat split; auto.
           ++ constructor; [done|]. eapply Forall_impl; [exact Hall|]. simpl. lia.
           ++ constructor; [lia|]. eapply Forall_impl; [exact Hall|]. simpl. lia.
        -- (* break at the last space of the window *)
           set (break_index := Py.rfind segment " ") in *.
           destruct (IH (start + break_index + 1)
                       (lines ++ [(start, Py.slice text start (start + break_index))]))
             as (segs & -> & Htiles & Hsorted & Hall); [lia|lia|].
           exists ((start, Py.slice text start (start + break_index)) :: segs).
           rewrite <- app_assoc. split; [done|]. simpl.
           rewrite len_slice_inside by lia.
           replace (start + (start + break_index - start))
             with (start + break_index) by lia.
           rewrite (tiles_start _ _ _ Htiles). repeat split; auto.
           ++ right. split; [done|].
              apply getitem_inside; [lia|].
              unfold segment in Hsp. rewrite slice_inside in Hsp by lia.
              rewrite lookup_take_lt in Hsp by lia.
              rewrite lookup_drop in Hsp. rewrite <- Hsp. f_equal. lia.
           ++ constructor; [done|]. eapply Forall_impl; [exact Hall|]. simpl. lia.
           ++ constructor; [lia|]. eapply Forall_impl; [exact Hall|]. simpl. lia.
  - (* nothing left *)
    exists []. rewrite app_nil_r. simpl. repeat split; [lia|constructor|constructor].
Qed.

Lemma wrap_loop_more_fuel text m fuel :
  ∀ start lines segs,
  wrap_loop fuel text m start lines = Ret segs →
  ∀ fuel', (fuel ≤ fuel')%nat → wrap_loop fuel' text m start lines = Ret segs.
Proof.
  induction fuel as [|fuel IH]; intros start lines segs Hrun fuel' Hle; [done|].
  destruct fuel' as [|fuel']; [lia|]. simpl in *.
  destruct (start <? Py.len text); [|done].
  destruct (Py.len text - start <=? m); [done|].
  destruct ((Py.rfind _ _ =? -1) || (Py.rfind _ _ =? 0));
    (eapply IH; [exact Hrun|lia]).
Qed.

(** With a width of 0 or less the loop never reaches its exit. *)
Lemma wrap_loop_hangs text m :
  m ≤ 0 → ∀ fuel start lines,
  start < Py.len text → wrap_loop fuel text m start lines = Raise Hang.
Proof.
  intros Hm. induction fuel as [|fuel IH]; intros start lines Hstart; [done|].
  simpl. destruct (Z.ltb_spec start (Py.len text)); [|lia].
  destruct (Z.leb_spec (Py.len text - start) m); [lia|].
  set (segment := Py.slice text start (start + m + 1)).
  destruct (rfind_cases segment " "%char) as [[-> _]|[Hr _]]; simpl.
  { apply IH. lia. }
  destruct (Z.eqb_spec (Py.rfind segment " ") (-1)); [lia|].
  destruct (Z.eqb_spec (Py.rfind segment " ") 0); simpl.
  { apply IH. lia. }
  apply IH.
  assert (Py.len segment
          ≤ Z.max 0 (Py.bound (Py.len text) (start + m + 1)
                     - Py.bound (Py.len text) start)) as Hseg.
  { unfold segment, Py.slice. cbv zeta. unfold Py.len at 1.
    rewrite length_take. lia. }
  unfold Py.bound in Hseg.
  destruct (Z.ltb_spec (start + m + 1) 0), (Z.ltb_spec start 0); lia.
Qed.

Lemma wrap_text_hangs text width :
  width ≤ 0 → text ≠ [] → wrap_text text width = Raise Hang.
Proof.
  intros Hw Htext. apply wrap_loop_hangs; [lia|].
  destruct text; [done|]. unfold Py.len. simpl. lia.
Qed.

Lemma wrap_text_empty width : wrap_text [] width = Ret [].
Proof. reflexivity. Qed.

Lemma wrap_text_tiles text width :
  1 ≤ width →
  ∃ segs, wrap_text text width = Ret segs ∧ faithful_segments text segs.
Proof.
  intros Hw.
  destruct (wrap_loop_tiles text (Z.min width 50) ltac:(lia)
              (S (length text)) 0 [])
    as (segs & Hrun & Htiles & Hsorted & _).
  { pose proof (len_nonneg text). lia. }
  { unfold Py.len. lia. }
  exists segs. split; [exact Hrun|]. split; [done|]. split; [done|].
  by rewrite (rejoin_tiles _ 0 _ ltac:(lia) Htiles).
Qed.

(** Claim C1, for a width of at least 1: [wrap_text] returns, and so does the
    wrapping step of [reflow]; the segments are in strictly increasing order
    of their start offsets, they cover the text from offset 0 to its end with
    no gap other than a single space between a segment and the next (or the
    end), and putting the segment texts together with one space at each such
    place gives the text back.  For a width of 0 or less and a text that is
    not empty the loop never exits ([wrap_text_hangs]). *)
Theorem wrap_text_faithful (text : str) (width : Z) :
  1 ≤ width →
  (∃ segs, wrap_text text width = Ret segs ∧ faithful_segments text segs)
  ∧ (∃ lines, wrapped_lines text width = Ret lines ∧ faithful_segments text lines).
Proof.
  intros Hw. destruct (wrap_text_tiles text width Hw) as (segs & Hrun & Hok).
  split; [eauto|]. unfold wrapped_lines. rewrite Hrun. simpl.
  destruct segs as [|seg segs]; [|eauto].
  eexists. split; [done|].
  destruct Hok as (_ & Htiles & _). simpl in Htiles.
  destruct text; [|done].
  repeat split; simpl; auto; repeat constructor.
Qed.

Lemma wrap_text_faithful_witness :
  1 ≤ 10
  ∧ (∃ segs, wrap_text (chars "Hello there") 10 = Ret segs
             ∧ faithful_segments (chars "Hello there") segs)
  ∧ (∃ lines, wrapped_lines (chars "Hello there") 10 = Ret lines
              ∧ faithful_segments (chars "Hello there") lines).
Proof. split; [lia|]. apply (wrap_text_faithful (chars "Hello there") 10). lia. Defined.

Lemma wrap_text_width_0_never_returns :
  ¬ (∃ fuel segs, wrap_loop fuel (chars "a") (Z.min 0 50) 0 [] = Ret segs)
  ∧ wrap_text (chars "a") 0 = Raise Hang.
Proof.
  split; [|reflexivity]. intros (fuel & segs & Hrun).
  rewrite wrap_loop_hangs in Hrun; [done|simpl; lia|reflexivity].
Qed.

(** Claim C6: for the empty text, at any width, the wrapping step of
    [reflow] yields exactly the one segment [(0, "")].  ([wrap_text] itself
    returns the empty list, [wrap_text_empty]; [reflow] puts the segment in
    its place.) *)
Theorem wrapped_lines_empty (width : Z) : wrapped_lines [] width = Ret [(0, [])].
Proof. reflexivity. Qed.

(** * combine_same_speaker_entries *)

Lemma getitem_middle {A} (pre : list A) (x : A) (post : list A) :
  Py.getitem (pre ++ x :: post) (Py.len pre) = Ret x.
Proof.
  apply getitem_inside; [apply len_nonneg|].
  unfold Py.len. rewrite Nat2Z.id. apply list_lookup_middle. done.
Qed.

Lemma setitem_middle {A} (pre : list A) (x y : A) (post : list A) :
  Py.setitem (pre ++ x :: post) (Py.len pre) y = Ret (pre ++ y :: post).
Proof.
  unfold Py.setitem. rewrite position_inside.
  - unfold Py.len. rewrite Nat2Z.id. f_equal.
    rewrite insert_app_r_alt by lia. by rewrite Nat.sub_diag.
  - unfold Py.len. rewrite length_app. simpl. lia.
Qed.

Lemma pop_middle {A} (pre : list A) (x : A) (post : list A) :
  Py.pop (pre ++ x :: post) (Py.len pre) = Ret (pre ++ post).
Proof.
  unfold Py.pop. rewrite position_inside.
  - unfold Py.len. rewrite Nat2Z.id. f_equal.
    rewrite take_app_length.
    replace (S (length pre)) with (length (pre ++ [x])) by (rewrite length_app; simpl; lia).
    rewrite (cons_middle x pre post), app_assoc. by rewrite drop_app_length.
  - unfold Py.len. rewrite length_app. simpl. lia.
Qed.

Lemma len_snoc {A} (pre : list A) (x : A) : Py.len (pre ++ [x]) = Py.len pre + 1.
Proof. rewrite len_app. done. Qed.

Lemma combine_step_middle pre a b post :
  combine_step (pre ++ a :: b :: post) (Py.len pre)
  = Ret (if mergeable a b
         then (pre ++ combined a b :: post, Py.len pre)
         else (pre ++ a :: b :: post, Py.len pre + 1)).
Proof.
  unfold combine_step, mergeable.
  rewrite getitem_middle. simpl.
  rewrite <- (len_snoc pre a), (cons_middle a pre (b :: post)), app_assoc, getitem_middle.
  simpl. destruct (same_speaker_no_brackets a b); [|done]. simpl.
  destruct (_ <=? 150); [|done].
  rewrite <- app_assoc. simpl. rewrite setitem_middle. simpl.
  rewrite (len_snoc pre a), <- (len_snoc pre (combined a b)).
  rewrite (cons_middle (combined a b) pre (b :: post)), app_assoc, pop_middle.
  by rewrite <- app_assoc.
Qed.

Lemma combine_loop_absorb rest :
  ∀ pre current fuel, (length rest < fuel)%nat →
  combine_loop fuel (pre ++ current :: rest) (Py.len pre)
  = Ret (pre ++ absorb current rest).
Proof.
  induction rest as [|next_entry rest IH]; intros pre current fuel Hfuel;
    (destruct fuel as [|fuel]; [simpl in Hfuel; lia|]); simpl.
  - rewrite len_snoc. destruct (Z.ltb_spec (Py.len pre) (Py.len pre + 1 - 1)); [lia|done].
  - destruct (Z.ltb_spec (Py.len pre) (Py.len (pre ++ current :: next_entry :: rest) - 1))
      as [_|Hge].
    2: { rewrite len_app in Hge. unfold Py.len in Hge. simpl in Hge. lia. }
    rewrite combine_step_middle. simpl in Hfuel.
    destruct (mergeable current next_entry); simpl.
    + apply IH. lia.
    + rewrite <- (len_snoc pre current), (cons_middle current pre), app_assoc.
      rewrite IH by lia. by rewrite <- app_assoc.
Qed.

Lemma combine_same_speaker_entries_absorb entries :
  combine_same_speaker_entries entries
  = Ret (match entries with
         | [] => []
         | current :: rest => absorb current rest
         end).
Proof.
  destruct entries as [|current rest]; [done|].
  apply (combine_loop_absorb rest [] current). simpl. lia.
Qed.

Lemma len_text_combined a b : Py.len (text a) ≤ Py.len (text (combined a b)).
Proof.
  unfold combined. destruct (wants_space (text a)); simpl;
    rewrite !len_app; pose proof (len_nonneg (text b)); unfold Py.len; simpl; lia.
Qed.

Lemma mergeable_false_combined x a b :
  mergeable a b = true → mergeable x a = false → mergeable x (combined a b) = false.
Proof.
  unfold mergeable, same_speaker_no_brackets.
  intros Hab Hxa. pose proof (len_text_combined a b) as Hlen.
  assert (speaker (combined a b) = speaker a) as ->
    by (unfold combined; destruct (wants_space _); done).
  repeat (apply andb_true_iff in Hab as [Hab ?]).
  destruct (bool_decide (speaker x = speaker a)); [|done].
  destruct (Py.contains "[" (text x)); [done|].
  destruct (Py.contains "]" (text x)); [done|].
  destruct (Py.contains "[" (text a)); [done|].
  destruct (Py.contains "]" (text a)); [done|].
  simpl in *. apply Z.leb_gt in Hxa.
  rewrite andb_false_iff. right. apply Z.leb_gt. lia.
Qed.

Lemma absorb_head rest :
  ∀ current, ∃ current' rest',
    absorb current rest = current' :: rest'
    ∧ ∀ x, mergeable x current = false → mergeable x current' = false.
Proof.
  induction rest as [|next_entry rest IH]; intros current; simpl.
  - eauto.
  - destruct (mergeable current next_entry) eqn:Hm; [|eauto].
    destruct (IH (combined current next_entry)) as (c' & r' & -> & Hc').
    exists c', r'. split; [done|]. intros x Hx.
    apply Hc'. by apply mergeable_false_combined.
Qed.

Lemma absorb_stable rest : ∀ current, stable (absorb current rest).
Proof.
  induction rest as [|next_entry rest IH]; intros current; simpl; [done|].
  destruct (mergeable current next_entry) eqn:Hm; [apply IH|].
  destruct (absorb_head rest next_entry) as (c' & r' & Heq & Hc').
  specialize (IH next_entry). rewrite Heq in *. simpl. auto.
Qed.

Lemma absorb_of_stable rest :
  ∀ current, stable (current :: rest) → absorb current rest = current :: rest.
Proof.
  induction rest as [|next_entry rest IH]; intros current; simpl; [done|].
  intros [-> Hrest]. f_equal. by apply IH.
Qed.

Lemma combine_of_stable entries :
  stable entries → combine_same_speaker_entries entries = Ret entries.
Proof.
  intros Hs. rewrite combine_same_speaker_entries_absorb.
  destruct entries; [done|]. by rewrite absorb_of_stable.
Qed.

Lemma combine_stable entries :
  ∃ merged, combine_same_speaker_entries entries = Ret merged ∧ stable merged.
Proof.
  rewrite combine_same_speaker_entries_absorb. eexists. split; [done|].
  destruct entries; [done|]. apply absorb_stable.
Qed.

(** Claim C7: the merge pass always returns, and running it on its own
    result returns that result unchanged. *)
Theorem combine_same_speaker_entries_idempotent (entries : list DialogueEntry) :
  ∃ merged,
    combine_same_speaker_entries entries = Ret merged
    ∧ combine_same_speaker_entries merged = Ret merged.
Proof.
  destruct (combine_stable entries) as (merged & Hrun & Hs).
  exists merged. split; [done|]. by apply combine_of_stable.
Qed.

Lemma mergeable_eligible a b : mergeable a b = true ↔ eligible a b.
Proof.
  unfold mergeable, same_speaker_no_brackets, eligible, Py.contains.
  rewrite !andb_true_iff, !negb_true_iff, !bool_decide_eq_false,
    bool_decide_eq_true, Z.leb_le.
  tauto.
Qed.

Lemma wants_space_ends_open t : wants_space t = true ↔ ends_open t.
Proof.
  unfold wants_space, ends_open, Py.contains, punctuation.
  destruct (last t); [|done].
  by rewrite negb_true_iff, bool_decide_eq_false.
Qed.

Lemma combined_eq a b :
  combined a b
  = mkEntry (speaker a)
      (text a ++ (if decide (ends_open (text a)) then [" "%char] else []) ++ text b).
Proof.
  unfold combined. pose proof (wants_space_ends_open (text a)) as Hw.
  destruct (wants_space (text a)), (decide (ends_open (text a))) as [Ho|Ho];
    simpl.
  - by rewrite <- app_assoc.
  - exfalso. apply Ho, Hw. done.
  - apply Hw in Ho. done.
  - done.
Qed.

(** Claim C5, with the punctuation the code tests for: one pass of the
    loop at a pair of neighbours [a], [b] merges them exactly when their
    speakers are equal, neither text holds a square bracket and
    [len(a.text) + 1 + len(b.text) <= 150]; it then replaces [a] by an entry
    with the speaker of [a] and the text of [a], a single space exactly when
    that text is not empty and does not end in one of [. ! ? , : ;], and the
    text of [b]; it removes [b] and stays at the same index.  Otherwise it
    leaves the entries alone and moves on by one. *)
Theorem combine_step_merges (pre : list DialogueEntry) (a b : DialogueEntry)
    (post : list DialogueEntry) :
  combine_step (pre ++ a :: b :: post) (Py.len pre)
  = Ret (if decide (eligible a b)
         then (pre ++ combined a b :: post, Py.len pre)
         else (pre ++ a :: b :: post, Py.len pre + 1))
  ∧ combined a b
    = mkEntry (speaker a)
        (text a ++ (if decide (ends_open (text a)) then [" "%char] else [])
         ++ text b).
Proof.
  split; [|apply combined_eq].
  rewrite combine_step_middle. pose proof (mergeable_eligible a b) as Hm.
  destruct (mergeable a b), (decide (eligible a b)) as [He|He]; try done.
  - exfalso. apply He, Hm. done.
  - apply Hm in He. done.
Qed.

Lemma no_space_after_question_mark :
  eligible (mkEntry (chars "A") (chars "Why?")) (mkEntry (chars "A") (chars "x"))
  ∧ spec_ends_open (chars "Why?")
  ∧ combine_same_speaker_entries
      [mkEntry (chars "A") (chars "Why?"); mkEntry (chars "A") (chars "x")]
    = Ret [mkEntry (chars "A") (chars "Why?x")].
Proof.
  split; [|split].
  - apply mergeable_eligible. reflexivity.
  - apply (bool_decide_unpack _). reflexivity.
  - reflexivity.
Qed.

(** * Sequencing *)

Lemma bind_Ret {A B} (m : result A) (k : A → result B) (b : B) :
  m ≫= k = Ret b → ∃ a, m = Ret a ∧ k a = Ret b.
Proof. destruct m as [a|e]; simpl; [eauto|discriminate]. Qed.

Lemma Ret_bind {A B} (a : A) (k : A → result B) : Ret a ≫= k = k a.
Proof. done. Qed.

(** Take apart a hypothesis [H : code = Ret _] along the code: every call
    that returned gets a hypothesis of its own. *)
Ltac unravel H :=
  repeat
    (cbv beta zeta in H;
     match type of H with
     | Ret _ = Ret _ => injection H as H
     | Raise _ = Ret _ => discriminate H
     | Ret _ ≫= _ = Ret _ => rewrite Ret_bind in H
     | Raise _ ≫= _ = Ret _ => discriminate H
     | (if ?c then _ else _) ≫= _ = Ret _ => destruct c eqn:?
     | match ?x with _ => _ end ≫= _ = Ret _ => destruct x eqn:?
     | _ ≫= _ = Ret _ =>
         let a := fresh "a" in
         let Ha := fresh "Ha" in
         apply bind_Ret in H as (a & Ha & H); unravel Ha
     | (if ?c then _ else _) = Ret _ => destruct c eqn:?
     | match ?x with _ => _ end = Ret _ => destruct x eqn:?
     end).

(** * reflow *)

Lemma wrapped_lines_returns text cw :
  1 ≤ cw → ∃ line lines, wrapped_lines text cw = Ret ((0, line) :: lines).
Proof.
  intros Hcw. destruct (wrap_text_tiles text cw Hcw) as (segs & Hrun & _ & Ht & _).
  unfold wrapped_lines. rewrite Hrun. simpl.
  destruct segs as [|[o line] segs]; [eauto|].
  simpl in Ht. destruct Ht as (-> & _). eauto.
Qed.

(** The display of a list of entries: it exists when the width is at least
    1, each line carries the index of an entry of the list, and the first
    line of a list that is not empty belongs to its first entry. *)
Lemma display_from_returns entries cw :
  1 ≤ cw → ∀ i,
  ∃ lines,
    display_from entries cw i = Ret lines
    ∧ Forall (λ line, i ≤ line.1.1 < i + Py.len entries) lines
    ∧ (entries ≠ [] → ∃ line rest, lines = (i, 0, line) :: rest).
Proof.
  intros Hcw. induction entries as [|entry entries IH]; intros i; simpl.
  - exists []. repeat split; [constructor|done].
  - destruct (wrapped_lines_returns (text entry) cw Hcw) as (line & wrapped & ->).
    destruct (IH (i + 1)) as (lines & -> & Hall & _). simpl.
    eexists. split; [done|]. split; [|eauto].
    unfold Py.len in *. simpl length.
    constructor; [simpl; lia|]. apply Forall_app. split.
    + apply Forall_fmap, Forall_forall. intros [o l] _. unfold compose. simpl. lia.
    + eapply Forall_impl; [exact Hall|]. simpl. lia.
Qed.

Lemma get_current_field_length_returns st :
  Forall (λ line, 0 ≤ line.1.1 < Py.len (entries st)) (display_lines st) →
  0 ≤ cursor_display_line st < Py.len (display_lines st) →
  ∃ cur_len, get_current_field_length st = Ret cur_len.
Proof.
  intros Hall Hcur. unfold get_current_field_length.
  destruct (lookup_lt_is_Some_2 (display_lines st) (Z.to_nat (cursor_display_line st)))
    as [[[e off] l] Hline]; [unfold Py.len in Hcur; lia|].
  rewrite (getitem_inside (display_lines st) (cursor_display_line st) _ ltac:(lia) Hline).
  simpl.
  eapply Forall_lookup_1 in Hall; [|exact Hline]. simpl in Hall.
  destruct (lookup_lt_is_Some_2 (entries st) (Z.to_nat e)) as [entry He];
    [unfold Py.len in Hall; lia|].
  rewrite (getitem_inside (entries st) e _ ltac:(lia) He). simpl. eauto.
Qed.

(** [reflow] only sets the display and the cursor (and merges the entries
    on the first load). *)
Lemma reflow_Ret st st' :
  reflow st = Ret st' →
  frame st st'
  ∧ (initial_load st = false → entries st' = entries st)
  ∧ (initial_load st = true →
     combine_same_speaker_entries (entries st) = Ret (entries st'))
  ∧ display_from (entries st') (content_width st') 0 = Ret (display_lines st')
  ∧ cursor_field st' = cursor_field st
  ∧ status_msg st' = status_msg st
  ∧ scroll_offset st' = scroll_offset st
  ∧ settled st'.
Proof.
  unfold reflow, frame. intros H.
  apply bind_Ret in H as (st1 & H1 & H).
  assert (frame st st1 ∧ (initial_load st = false → entries st1 = entries st)
          ∧ (initial_load st = true →
             combine_same_speaker_entries (entries st) = Ret (entries st1))
          ∧ cursor_field st1 = cursor_field st ∧ status_msg st1 = status_msg st
          ∧ scroll_offset st1 = scroll_offset st
          ∧ content_width st1 = content_width st) as (Hf & He & Hm & Hc & Hs & Ho & Hw).
  { unfold frame, content_width. destruct (initial_load st) eqn:Hil; unravel H1; subst;
      simpl; repeat split; congruence. }
  clear H1. unfold frame in Hf.
  apply bind_Ret in H as (lines & Hlines & H). cbv zeta in H.
  set (st2 := if cursor_display_line (with_display_lines lines st1) >=? _
              then _ else _) in H.
  assert (stdscr st2 = stdscr st1 ∧ filename st2 = filename st1
          ∧ initial_load st2 = initial_load st1 ∧ undo_stack st2 = undo_stack st1
          ∧ keystroke_count st2 = keystroke_count st1 ∧ files st2 = files st1
          ∧ entries st2 = entries st1 ∧ display_lines st2 = lines
          ∧ cursor_field st2 = cursor_field st1 ∧ status_msg st2 = status_msg st1
          ∧ scroll_offset st2 = scroll_offset st1
          ∧ content_width st2 = content_width st1) as Hst2
    by (unfold st2, content_width; destruct (_ >=? _); simpl; repeat split; done).
  assert (cursor_display_line st2 < Py.len lines) as Hcur.
  { unfold st2. simpl.
    destruct (Z.geb_spec (cursor_display_line st1) (Py.len lines)); simpl; lia. }
  clearbody st2.
  apply bind_Ret in H as (cur_len & Hlen & H). injection H as H.
  assert (content_width st' = content_width st2) as Hw'
    by (unfold content_width; destruct (cursor_pos st2 >? cur_len); subst st'; done).
  assert (settled st') as Hsettled.
  { unfold settled, displayed. rewrite Hw'.
    destruct (Z.gtb_spec (cursor_pos st2) cur_len); subst st'; simpl.
    - split; [intuition congruence|]. split; [intuition congruence|].
      exists cur_len. split; [exact Hlen|lia].
    - split; [intuition congruence|]. split; [intuition congruence|].
      exists cur_len. split; [exact Hlen|lia]. }
  rewrite Hw'.
  destruct (cursor_pos st2 >? cur_len); subst st'; simpl;
    intuition congruence.
Qed.

Lemma reflow_returns st :
  1 ≤ content_width st → entries st ≠ [] → 0 ≤ cursor_display_line st →
  ∃ st', reflow st = Ret st' ∧ 0 ≤ cursor_display_line st'.
Proof.
  intros Hcw Hne Hcur. unfold reflow.
  set (m := if initial_load st then _ else _).
  assert (∃ st1, m = Ret st1 ∧ entries st1 ≠ [] ∧ content_width st1 = content_width st
                 ∧ cursor_display_line st1 = cursor_display_line st)
    as (st1 & -> & Hne1 & Hw1 & Hc1).
  { unfold m. destruct (initial_load st); [|eauto].
    rewrite combine_same_speaker_entries_absorb. simpl. eexists.
    split; [done|]. split; [|done]. simpl.
    destruct (entries st) as [|e es]; [done|].
    destruct (absorb_head es e) as (c & r & -> & _). done. }
  rewrite Ret_bind. rewrite <- Hw1 in Hcw. rewrite <- Hc1 in Hcur.
  destruct (display_from_returns (entries st1) _ Hcw 0) as (lines & -> & Hall & Hfirst).
  destruct (Hfirst Hne1) as (line & rest & Hlines).
  rewrite Ret_bind. cbv zeta.
  set (st2 := if cursor_display_line (with_display_lines lines st1) >=? _
              then _ else _).
  assert (entries st2 = entries st1 ∧ display_lines st2 = lines
          ∧ 0 ≤ cursor_display_line st2 < Py.len lines) as (He2 & Hd2 & Hc2).
  { unfold st2. simpl.
    assert (1 ≤ Py.len lines) by (rewrite Hlines; unfold Py.len; simpl length; lia).
    destruct (Z.geb_spec (cursor_display_line st1) (Py.len lines)); simpl;
      repeat split; lia. }
  destruct (get_current_field_length_returns st2) as (cur_len & ->).
  - rewrite He2, Hd2. eapply Forall_impl; [exact Hall|]. simpl. lia.
  - by rewrite Hd2.
  - rewrite Ret_bind. eexists. split; [done|].
    destruct (cursor_pos st2 >? cur_len); simpl; lia.
Qed.

(** * load_file and save_file *)

Lemma universal_newlines_no_CR data : CR ∉ data → universal_newlines data = data.
Proof.
  induction data as [|c data IH]; [done|]. rewrite not_elem_of_cons.
  intros [Hc Hdata]. simpl.
  destruct (bool_decide_reflect (c = CR)); [congruence|]. by rewrite IH.
Qed.

Lemma readlines_line line rest : ∀ before,
  LF ∉ line →
  readlines before (line ++ LF :: rest) = (before ++ line ++ [LF]) :: readlines [] rest.
Proof.
  induction line as [|c line IH]; intros before; simpl.
  - done.
  - rewrite not_elem_of_cons. intros [Hc Hline].
    destruct (bool_decide_reflect (c = LF)); [congruence|].
    rewrite IH by done. by rewrite <- app_assoc.
Qed.

Lemma rstrip_newline_line line : LF ∉ line → rstrip_newline (line ++ [LF]) = line.
Proof.
  induction line as [|c line IH]; [done|]. rewrite not_elem_of_cons.
  intros [Hc Hline]. simpl. rewrite IH by done.
  destruct line; [|done].
  destruct (bool_decide_reflect (c = LF)); [congruence|done].
Qed.

Lemma split_tab_line before after :
  TAB ∉ before → split_tab (before ++ TAB :: after) = (before, Some after).
Proof.
  induction before as [|c before IH]; [done|]. rewrite not_elem_of_cons.
  intros [Hc Hbefore]. simpl.
  destruct (bool_decide_reflect (c = TAB)); [congruence|]. by rewrite IH.
Qed.

Lemma parse_line_written entry :
  clean (speaker entry) → clean (text entry) →
  parse_line (speaker entry ++ [TAB] ++ text entry ++ [LF]) = entry.
Proof.
  intros (Hst & Hsl & _) (_ & Htl & _). unfold parse_line.
  replace (speaker entry ++ [TAB] ++ text entry ++ [LF])
    with ((speaker entry ++ TAB :: text entry) ++ [LF])
    by (by rewrite <- app_assoc).
  rewrite rstrip_newline_line.
  - rewrite split_tab_line by done. by destruct entry.
  - rewrite elem_of_app, elem_of_cons. intros [?|[?|?]]; done.
Qed.

Lemma written_no_CR entries : clean_entries entries → CR ∉ written entries.
Proof.
  induction 1 as [|entry entries [(_ & _ & Hs) (_ & _ & Ht)] _ IH]; simpl.
  - apply not_elem_of_nil.
  - repeat (rewrite elem_of_app || rewrite elem_of_cons).
    intros [H|[H|[H|[H|H]]]]; try done; discriminate H.
Qed.

Lemma readlines_written entries :
  clean_entries entries →
  readlines [] (written entries)
  = map (λ entry, speaker entry ++ [TAB] ++ text entry ++ [LF]) entries.
Proof.
  induction 1 as [|entry entries [(_ & Hs & _) (_ & Ht & _)] _ IH]; [done|].
  simpl.
  replace (speaker entry ++ TAB :: text entry ++ LF :: written entries)
    with ((speaker entry ++ TAB :: text entry) ++ LF :: written entries)
    by (by rewrite <- app_assoc).
  rewrite readlines_line.
  - rewrite IH. simpl. by rewrite <- app_assoc.
  - rewrite elem_of_app, elem_of_cons. intros [?|[?|?]]; done.
Qed.

(** Parsing what was written gives the entries back. *)
Lemma loaded_written entries :
  clean_entries entries → loaded (written entries) = entries.
Proof.
  intros Hclean. unfold loaded.
  rewrite universal_newlines_no_CR by by apply written_no_CR.
  rewrite readlines_written by done.
  induction Hclean as [|entry entries [Hs Ht] _ IH]; [done|].
  simpl. f_equal; [|done]. by apply parse_line_written.
Qed.

Lemma save_file_writes st path :
  filename st = Some path →
  files (save_file st) = files st ++ [Saved path (written (entries st))].
Proof. unfold save_file. by intros ->. Qed.

(** A session started on a file that [save_file] wrote. *)
Lemma init_written screen path records :
  path ≠ ""%string → 24 ≤ screen.2 → records ≠ [] →
  clean_entries records →
  ∃ st merged,
    init screen (Some path) (Some (written records)) = Ret st
    ∧ combine_same_speaker_entries records = Ret merged
    ∧ entries st = merged
    ∧ filename st = Some path
    ∧ files st = [].
Proof.
  intros Hpath Hscreen Hne Hclean. unfold init.
  destruct path as [|c path]; [done|]. cbv zeta.
  rewrite loaded_written by done.
  set (st0 := with_entries _ _).
  assert (content_width st0 = screen.2 - 23) as Hw
    by (unfold content_width; destruct screen; done).
  destruct (reflow_returns st0) as (st & Hrun & _); [lia|done|done|].
  rewrite Hrun. rewrite Ret_bind.
  apply reflow_Ret in Hrun as ((_ & Hfn & _ & _ & _ & Hfiles) & _ & Hmerge & _).
  specialize (Hmerge eq_refl). simpl in Hmerge.
  eexists _, _. split; [done|]. split; [exact Hmerge|]. simpl. auto.
Qed.

(** Claim C3, for entries that the merge pass would leave alone: when the
    entries of a session are not empty, hold no tab, line feed or carriage
    return in any field and no two neighbours qualify for a merge, then
    saving, starting a session on the saved file (on a terminal at least 24
    columns wide) and saving again writes the same data as the first save. *)
Theorem save_reload_save (st0 : Editor) (path : string) (screen : Z * Z) :
  filename st0 = Some path → path ≠ ""%string → 24 ≤ screen.2 →
  entries st0 ≠ [] → clean_entries (entries st0) → stable (entries st0) →
  ∃ data st1,
    files (save_file st0) = files st0 ++ [Saved path data]
    ∧ init screen (Some path) (Some data) = Ret st1
    ∧ files (save_file st1) = [Saved path data].
Proof.
  intros Hfile Hpath Hscreen Hne Hclean Hstable.
  destruct (init_written screen path (entries st0))
    as (st1 & merged & Hinit & Hmerge & He & Hf & Hfiles); try done.
  rewrite combine_of_stable in Hmerge by done. injection Hmerge as <-.
  exists (written (entries st0)), st1. split; [by apply save_file_writes|].
  split; [done|]. rewrite (save_file_writes st1 path Hf), Hfiles, He. done.
Qed.

Lemma save_reload_save_witness :
  let st0 :=
    with_entries [mkEntry (chars "A") (chars "hi"); mkEntry (chars "B") (chars "there")]
      (blank (24, 80) (Some "t.tsv"%string)) in
  ∃ data st1,
    files (save_file st0) = files st0 ++ [Saved "t.tsv" data]
    ∧ init (24, 80) (Some "t.tsv"%string) (Some data) = Ret st1
    ∧ files (save_file st1) = [Saved "t.tsv" data].
Proof.
  apply (save_reload_save _ "t.tsv" (24, 80)).
  - reflexivity.
  - discriminate.
  - simpl. lia.
  - discriminate.
  - apply (bool_decide_unpack _). vm_compute. reflexivity.
  - simpl. auto.
Defined.

Lemma reload_merges_same_speaker :
  let records := [mkEntry (chars "A") (chars "hi"); mkEntry (chars "A") (chars "there")] in
  clean_entries records
  ∧ ∃ st1,
      init (24, 80) (Some "t.tsv"%string) (Some (written records)) = Ret st1
      ∧ entries st1 = [mkEntry (chars "A") (chars "hi there")]
      ∧ files (save_file st1) ≠ [Saved "t.tsv" (written records)].
Proof.
  split.
  - apply (bool_decide_unpack _). vm_compute. reflexivity.
  - eexists. split; [vm_compute; reflexivity|]. split; [reflexivity|].
    vm_compute. discriminate.
Qed.

(** * What the operations leave alone *)

Lemma frame_refl st : frame st st.
Proof. by repeat split. Qed.

Lemma frame_trans st1 st2 st3 : frame st1 st2 → frame st2 st3 → frame st1 st3.
Proof. unfold frame. intuition congruence. Qed.

(** Close a goal about the frame of an operation whose code has been taken
    apart: every inner call is replaced by what it leaves alone. *)
Ltac frame_calls lemma_for_cursor :=
  repeat match goal with
         | H : reflow _ = Ret _ |- _ => apply reflow_Ret in H as (H & _)
         | H : set_cursor_for_content _ _ _ = Ret _ |- _ => apply lemma_for_cursor in H
         end;
  repeat case_match; simplify_eq; unfold frame in *;
  simpl in *; intuition congruence.

Lemma set_cursor_for_content_frame st entry_idx target_offset st' :
  set_cursor_for_content st entry_idx target_offset = Ret st' → frame st st'.
Proof.
  unfold set_cursor_for_content. intros H. unravel H; subst; by repeat split.
Qed.

Lemma backspace_content_frame st st' :
  backspace_content st = Ret st' → frame st st'.
Proof.
  unfold backspace_content. intros H.
  unravel H; frame_calls set_cursor_for_content_frame.
Qed.

Lemma perform_frame op st st' :
  perform op st = Ret st' → frame (save_undo_state st) st'.
Proof.
  destruct op; simpl; intros H.
  - unfold handle_insert in H. unravel H; frame_calls set_cursor_for_content_frame.
  - unfold handle_backspace in H. cbv zeta in H.
    destruct (cursor_field (save_undo_state st));
      [|by apply backspace_content_frame].
    unravel H; frame_calls set_cursor_for_content_frame.
  - unfold split_line_at_cursor in H.
    unravel H; frame_calls set_cursor_for_content_frame.
  - unfold move_entry_up, move_entry_up_body, follow_entry in H.
    unravel H; frame_calls set_cursor_for_content_frame.
  - unfold move_entry_down, move_entry_down_body, follow_entry in H.
    unravel H; frame_calls set_cursor_for_content_frame.
  - unfold clear_speaker in H.
    unravel H; frame_calls set_cursor_for_content_frame.
Qed.

(** * States in which the display is up to date *)

(** The display and the clamping of [reflow] read only the entries, the
    terminal, the load flag and the cursor: on a state that agrees with a
    settled one on these, [reflow] just installs the display of that state. *)
Lemma reflow_like_settled st st_r :
  settled st → initial_load st_r = false →
  entries st_r = entries st → stdscr st_r = stdscr st →
  cursor_display_line st_r = cursor_display_line st →
  cursor_field st_r = cursor_field st →
  cursor_pos st_r = cursor_pos st →
  reflow st_r = Ret (with_display_lines (display_lines st) st_r).
Proof.
  intros (Hlines & Hcur & cur_len & Hlen & Hpos) Hload He Hscr Hc Hf Hp.
  unfold reflow. rewrite Hload, Ret_bind.
  assert (content_width st_r = content_width st) as ->
    by (unfold content_width; by rewrite Hscr).
  rewrite He, Hlines, Ret_bind. cbv zeta.
  replace (cursor_display_line (with_display_lines (display_lines st) st_r)
           >=? Py.len (display_lines (with_display_lines (display_lines st) st_r)))
    with false
    by (simpl; rewrite Hc; symmetry; rewrite Z.geb_leb; apply Z.leb_gt; lia).
  assert (get_current_field_length (with_display_lines (display_lines st) st_r)
          = Ret cur_len) as ->.
  { rewrite <- Hlen. unfold get_current_field_length. simpl. by rewrite Hc, He, Hf. }
  rewrite Ret_bind. simpl. rewrite Hp.
  destruct (Z.gtb_spec (cursor_pos st) cur_len); [lia|done].
Qed.

Lemma settled_reflow st :
  initial_load st = false → settled st → reflow st = Ret st.
Proof.
  intros Hload Hs. rewrite (reflow_like_settled st st) by done. by destruct st.
Qed.

Lemma reflow_fixed_settled st : reflow st = Ret st → settled st.
Proof. intros H. by apply reflow_Ret in H as (_ & _ & _ & _ & _ & _ & _ & ?). Qed.

(** * The undo stack *)

Lemma getitem_last {A} (l : list A) (x : A) : Py.getitem (l ++ [x]) (-1) = Ret x.
Proof.
  unfold Py.getitem, Py.position. rewrite len_snoc. simpl.
  pose proof (len_nonneg l).
  destruct (Z.leb_spec 0 (-1 + (Py.len l + 1))); [|lia].
  destruct (Z.ltb_spec (-1 + (Py.len l + 1)) (Py.len l + 1)); [|lia]. simpl.
  replace (Z.to_nat (-1 + (Py.len l + 1))) with (length l) by (unfold Py.len; lia).
  by rewrite list_lookup_middle.
Qed.

Lemma pop_last {A} (l : list A) (x : A) : Py.pop (l ++ [x]) (-1) = Ret l.
Proof.
  unfold Py.pop, Py.position. rewrite len_snoc. simpl.
  pose proof (len_nonneg l).
  destruct (Z.leb_spec 0 (-1 + (Py.len l + 1))); [|lia].
  destruct (Z.ltb_spec (-1 + (Py.len l + 1)) (Py.len l + 1)); [|lia]. simpl.
  replace (Z.to_nat (-1 + (Py.len l + 1))) with (length l) by (unfold Py.len; lia).
  rewrite take_app_length.
  replace (S (length l)) with (length (l ++ [x])) by (rewrite length_app; simpl; lia).
  by rewrite drop_all, app_nil_r.
Qed.

(** [save_undo_state] keeps the top of a stack that is not empty. *)
Lemma pushed_keeps_top st top :
  last (undo_stack st) = Some top →
  ∃ below, pushed st = (below ++ [top]) ++ [snapshot st]
           ∧ (undo_stack st = [top] → below = []).
Proof.
  intros Htop. apply last_Some in Htop as (below & Hstack).
  unfold pushed. rewrite Hstack.
  destruct (Z.geb_spec (Py.len (below ++ [top])) 100) as [Hfull|_].
  - destruct below as [|oldest below].
    { unfold Py.len in Hfull. simpl in Hfull. lia. }
    exists below. split; [done|]. intros [=]. by destruct below.
  - exists below. split; [done|]. intros H. by apply app_singleton in H as [[-> _]|[_ [=]]].
Qed.

(** [undo] after a snapshot was pushed on a stack that is not empty: the
    state the stack had on top before the push is installed. *)
Lemma undo_restores_top st top st1 :
  initial_load st1 = false →
  last (undo_stack st) = Some top →
  undo_stack st1 = pushed st →
  ∃ below,
    undo st1
    = (st ← reflow
              (with_scroll_offset (saved_scroll_offset top.2)
                 (with_cursor_pos (saved_cursor_pos top.2)
                    (with_cursor_field (saved_cursor_field top.2)
                       (with_cursor_display_line (saved_cursor_display_line top.2)
                          (with_entries top.1
                             (with_undo_stack (below ++ [top]) st1))))));
       Ret (with_status_msg "Undo successful" st))
    ∧ (undo_stack st = [top] → below = []).
Proof.
  intros Hload Htop Hstack.
  destruct (pushed_keeps_top st top Htop) as (below & Hpushed & Hone).
  exists below. split; [|done]. unfold undo. rewrite Hstack, Hpushed.
  destruct (Z.leb_spec (Py.len ((below ++ [top]) ++ [snapshot st])) 1) as [Hshort|_].
  { rewrite !len_snoc in Hshort. pose proof (len_nonneg below). lia. }
  rewrite pop_last, Ret_bind. cbv zeta. simpl undo_stack.
  rewrite getitem_last, Ret_bind. by destruct top.
Qed.

Lemma init_untitled : init (24, 80) None None = Ret untitled_session.
Proof. reflexivity. Qed.




(** Claim C2 on the session without a file: after inserting ["a"] and then
    ["b"], one [undo] leaves the text empty, as it was before the first
    insertion, and not ["a"], as it was before the second. *)
Theorem undo_after_two_inserts :
  ∃ st1 st2 st3,
    handle_insert "a" untitled_session = Ret st1
    ∧ handle_insert "b" st1 = Ret st2
    ∧ undo st2 = Ret st3
    ∧ map text (entries st1) = [chars "a"]
    ∧ map text (entries st2) = [chars "ab"]
    ∧ map text (entries st3) = [chars ""]
    ∧ cursor_pos st1 = 1
    ∧ cursor_pos st3 = 0.
Proof.
  eexists _, _, _. split; [vm_compute; reflexivity|].
  split; [vm_compute; reflexivity|].
  split; [vm_compute; reflexivity|].
  repeat split; reflexivity.
Qed.

(** * The snapshot at the start of an operation *)



(** * Autosave *)

Lemma autosave_count_app log log' :
  autosave_count (log ++ log') = autosave_count log + autosave_count log'.
Proof. induction log as [|[] log IH]; simpl; lia. Qed.

Lemma count_keystroke_spec st :
  let n := keystroke_count st + 1 in
  keystroke_count (count_keystroke st) = (if n >=? autosave_interval then 0 else n)
  ∧ autosave_count (files (count_keystroke st))
    = autosave_count (files st) + (if n >=? autosave_interval then 1 else 0).
Proof.
  unfold count_keystroke. cbv zeta. simpl keystroke_count.
  destruct (keystroke_count st + 1 >=? autosave_interval); simpl.
  - rewrite autosave_count_app. simpl. lia.
  - lia.
Qed.

Lemma undo_quiet st st' :
  undo st = Ret st' →
  keystroke_count st' = keystroke_count st ∧ files st' = files st.
Proof.
  unfold undo. intros H. unravel H; [by subst|].
  apply reflow_Ret in Ha1 as ((_ & _ & _ & _ & Hk & Hf) & _).
  subst. simpl in *. by rewrite Hk, Hf.
Qed.

(** Nothing after the first statements of [process_key] counts keystrokes or
    autosaves. *)
Lemma dispatch_key_quiet key st st' :
  dispatch_key key st = Ret st' →
  keystroke_count st' = keystroke_count st
  ∧ autosave_count (files st') = autosave_count (files st).
Proof.
  unfold dispatch_key, scroll_down_if_needed. intros H.
  unravel H;
    repeat match goal with
           | H : handle_insert ?c _ = Ret _ |- _ => apply (perform_frame (Insert c)) in H
           | H : handle_backspace _ = Ret _ |- _ => apply (perform_frame Backspace) in H
           | H : split_line_at_cursor (save_undo_state _) = Ret _ |- _ =>
               apply (perform_frame Split) in H
           | H : move_entry_up _ = Ret _ |- _ => apply (perform_frame MoveUp) in H
           | H : move_entry_down _ = Ret _ |- _ => apply (perform_frame MoveDown) in H
           | H : clear_speaker _ = Ret _ |- _ => apply (perform_frame ClearSpeaker) in H
           | H : undo _ = Ret _ |- _ => apply undo_quiet in H
           end;
    repeat case_match; simplify_eq; unfold frame, save_file in *;
    repeat case_match; simpl in *; rewrite ?autosave_count_app; simpl;
    try (intuition congruence); try (split; [done|lia]).
Qed.

(** Claim C8, counting every key: over any sequence of keys that
    [process_key] handles without raising, starting with the counter below
    10, the number of autosave writes grows by the number of times the
    counter reaches 10, that is by [(counter + number of keys) / 10],
    whatever the keys are, and the counter ends at
    [(counter + number of keys) mod 10], back at 0 after every write. *)
Theorem autosave_every_tenth_key (keys : list Z) :
  ∀ st st',
  0 ≤ keystroke_count st < autosave_interval →
  run keys st = Ret st' →
  autosave_count (files st')
  = autosave_count (files st) + (keystroke_count st + Py.len keys) / autosave_interval
  ∧ keystroke_count st' = (keystroke_count st + Py.len keys) mod autosave_interval.
Proof.
  unfold autosave_interval.
  induction keys as [|key keys IH]; intros st st' Hcount Hrun.
  - injection Hrun as <-. unfold Py.len. simpl.
    rewrite Z.add_0_r, Z.div_small, Z.mod_small by lia. lia.
  - simpl in Hrun. apply bind_Ret in Hrun as (st1 & Hkey & Hrun).
    unfold process_key in Hkey. apply dispatch_key_quiet in Hkey as (Hk & Ha).
    destruct (count_keystroke_spec st) as (Hk' & Ha').
    unfold autosave_interval in *. rewrite Hk' in Hk. rewrite Ha' in Ha.
    assert (Py.len (key :: keys) = 1 + Py.len keys) as ->
      by (unfold Py.len; simpl length; lia).
    pose proof (len_nonneg keys) as Hlen.
    destruct (Z.geb_spec (keystroke_count st + 1) 10) as [Hfire|Hquiet].
    + destruct (IH st1 st') as (-> & ->); [lia|done|].
      rewrite Ha, Hk.
      replace (keystroke_count st + (1 + Py.len keys)) with (Py.len keys + 1 * 10) by lia.
      rewrite Z.div_add, Z.mod_add by lia. rewrite !Z.add_0_l. split; lia.
    + destruct (IH st1 st') as (-> & ->); [lia|done|].
      rewrite Ha, Hk.
      replace (keystroke_count st + (1 + Py.len keys))
        with (keystroke_count st + 1 + Py.len keys) by lia.
      split; lia.
Qed.

Lemma autosave_every_tenth_key_witness :
  ∃ st',
    0 ≤ keystroke_count untitled_session < autosave_interval
    ∧ run [97; 98; 99; 100; 101; 102; 103; 104; 105; 106; 107] untitled_session = Ret st'
    ∧ autosave_count (files st') = 0 + (0 + 11) / autosave_interval
    ∧ keystroke_count st' = (0 + 11) mod autosave_interval.
Proof.
  eexists. split; [done|]. split; [vm_compute; reflexivity|].
  apply (autosave_every_tenth_key
           [97; 98; 99; 100; 101; 102; 103; 104; 105; 106; 107] untitled_session).
  - done.
  - vm_compute. reflexivity.
Defined.

(** Ten control codes, each rejected with a diagnostic status, and the swap
    file is written. *)
Lemma autosave_counts_rejected_keys :
  ∃ st',
    run [1; 1; 1; 1; 1; 1; 1; 1; 1; 1] untitled_session = Ret st'
    ∧ entries st' = entries untitled_session
    ∧ undo_stack st' = undo_stack untitled_session
    ∧ status_msg st' = "Control key pressed: ASCII 1"%string
    ∧ files st' = [Autosaved ".unnamed.swp" (written (entries untitled_session))]
    ∧ keystroke_count st' = 0.
Proof. eexists. split; [vm_compute; reflexivity|]. repeat split; reflexivity. Qed.

(** * Operations complete or leave the entries alone *)

Lemma getitem_elem_of {A} (l : list A) (i : Z) (x : A) :
  Py.getitem l i = Ret x → x ∈ l.
Proof.
  intros H. apply getitem_Ret in H as (n & _ & Hn).
  by eapply list_elem_of_lookup_2.
Qed.

Lemma display_from_indices entries cw :
  ∀ i lines,
  display_from entries cw i = Ret lines →
  Forall (λ line, i ≤ line.1.1 < i + Py.len entries) lines.
Proof.
  induction entries as [|entry entries IH]; intros i lines H; simpl in H.
  - injection H as <-. constructor.
  - apply bind_Ret in H as (wrapped & _ & H).
    apply bind_Ret in H as (rest & Hrest & H). injection H as <-.
    apply IH in Hrest. unfold Py.len in *. simpl length.
    apply Forall_app. split.
    + apply Forall_fmap, Forall_forall. intros [o l] _. unfold compose. simpl. lia.
    + eapply Forall_impl; [exact Hrest|]. simpl. lia.
Qed.

Lemma content_width_stdscr st st' :
  stdscr st' = stdscr st → content_width st' = content_width st.
Proof. unfold content_width. by intros ->. Qed.










(** * The operations return *)

Lemma getitem_returns {A} (l : list A) (i : Z) :
  0 ≤ i < Py.len l → ∃ x, Py.getitem l i = Ret x.
Proof.
  intros Hi.
  destruct (lookup_lt_is_Some_2 l (Z.to_nat i)) as [x Hx]; [unfold Py.len in Hi; lia|].
  exists x. apply getitem_inside; [lia|done].
Qed.

Lemma setitem_returns {A} (l : list A) (i : Z) (x : A) :
  0 ≤ i < Py.len l → ∃ l', Py.setitem l i x = Ret l' ∧ Py.len l' = Py.len l.
Proof.
  intros Hi. unfold Py.setitem. rewrite position_inside by done.
  eexists. split; [done|]. unfold Py.len. by rewrite length_insert.
Qed.

Lemma pop_returns {A} (l : list A) (i : Z) :
  0 ≤ i < Py.len l → ∃ l', Py.pop l i = Ret l' ∧ Py.len l' = Py.len l - 1.
Proof.
  intros Hi. unfold Py.pop. rewrite position_inside by done.
  eexists. split; [done|]. unfold Py.len in *.
  rewrite length_app, length_take, length_drop. lia.
Qed.

Lemma len_insert {A} (l : list A) (i : Z) (x : A) :
  Py.len (Py.insert l i x) = Py.len l + 1.
Proof.
  unfold Py.insert. set (n := Z.to_nat _).
  rewrite len_app. unfold Py.len. simpl length.
  rewrite length_take, length_drop. lia.
Qed.

Lemma last_line_before_returns lines entry_idx n :
  (n ≤ length lines)%nat →
  ∃ found, last_line_before lines entry_idx n = Ret found
           ∧ ∀ i c, found = Some (i, c) → 0 ≤ i < Z.of_nat n.
Proof.
  induction n as [|n IH]; intros Hn; simpl.
  - eexists. split; [done|]. done.
  - destruct (getitem_returns lines (Z.of_nat n)) as ([[e off] l] & ->);
      [unfold Py.len; lia|].
    rewrite Ret_bind. destruct (bool_decide (e = entry_idx)).
    + eexists. split; [done|]. intros i c [= <- <-]. lia.
    + destruct IH as (found & -> & Hfound); [lia|].
      eexists. split; [done|]. intros i c Hic. apply Hfound in Hic. lia.
Qed.

Lemma line_holding_range lines :
  ∀ i0 entry_idx target i c,
  line_holding lines i0 entry_idx target = Some (i, c) →
  i0 ≤ i < i0 + Py.len lines.
Proof.
  induction lines as [|[[e off] l] lines IH]; intros i0 entry_idx target i c; simpl.
  - done.
  - unfold Py.len in *. simpl length. destruct (_ && _).
    + intros [= <- <-]. lia.
    + intros H. apply IH in H. lia.
Qed.

Lemma first_line_of_range lines :
  ∀ i0 entry_idx i, first_line_of lines i0 entry_idx = Some i → i0 ≤ i.
Proof.
  induction lines as [|[[e off] l] lines IH]; intros i0 entry_idx i; simpl.
  - done.
  - destruct (_ && _).
    + intros [= <-]. lia.
    + intros H. apply IH in H. lia.
Qed.

Lemma set_cursor_for_content_returns st entry_idx target_offset :
  ∃ st', set_cursor_for_content st entry_idx target_offset = Ret st'.
Proof.
  unfold set_cursor_for_content.
  assert (∃ found,
            match line_holding (display_lines st) 0 entry_idx target_offset with
            | Some found => Ret (Some found)
            | None => last_line_before (display_lines st) entry_idx
                        (length (display_lines st))
            end = Ret found
            ∧ ∀ i c, found = Some (i, c) → 0 ≤ i < Py.len (display_lines st))
    as (found & -> & Hfound).
  { destruct (line_holding _ _ _ _) as [[i c]|] eqn:Hhold.
    - eexists. split; [done|]. intros ? ? [= <- <-].
      apply line_holding_range in Hhold. lia.
    - destruct (last_line_before_returns (display_lines st) entry_idx
                  (length (display_lines st))) as (found & -> & Hfound); [lia|].
      eauto. }
  rewrite Ret_bind. destruct found as [[i c]|]; [|eauto].
  destruct (getitem_returns (display_lines st) i) as ([[e off] l] & ->); [eauto|].
  rewrite Ret_bind. destruct (c =? Py.len l); [|rewrite Ret_bind; eauto].
  destruct (Z.ltb_spec (i + 1) (Py.len (display_lines st))); [|rewrite Ret_bind; eauto].
  destruct (getitem_returns (display_lines st) (i + 1)) as ([[e' off'] l'] & ->).
  { specialize (Hfound i c eq_refl). lia. }
  rewrite Ret_bind. destruct (bool_decide _); rewrite Ret_bind; eauto.
Qed.

(** The line under the cursor of a ready state and the entry it shows. *)
Lemma ready_line st :
  ready st →
  ∃ entry_idx offset line entry,
    Py.getitem (display_lines st) (cursor_display_line st)
    = Ret (entry_idx, offset, line)
    ∧ 0 ≤ entry_idx < Py.len (entries st)
    ∧ Py.getitem (entries st) entry_idx = Ret entry.
Proof.
  intros (_ & _ & Hcur & Hdisp & Hlt & _).
  destruct (getitem_returns (display_lines st) (cursor_display_line st))
    as ([[e off] l] & Hline); [lia|].
  pose proof (display_from_indices _ _ _ _ Hdisp) as Hidx.
  apply getitem_elem_of in Hline as Hin.
  eapply Forall_forall in Hidx; [|exact Hin]. simpl in Hidx.
  destruct (getitem_returns (entries st) e) as (entry & Hentry); [lia|].
  eauto 10.
Qed.

(** [reflow] returns on a state made from a ready one by replacing its
    entries by a list that is not empty and moving its cursor. *)
Lemma reflow_edited st new_entries st0 :
  ready st → 1 ≤ Py.len new_entries →
  entries st0 = new_entries → stdscr st0 = stdscr st →
  initial_load st0 = false →
  0 ≤ cursor_display_line st0 →
  ∃ st', reflow st0 = Ret st'
         ∧ entries st' = new_entries ∧ stdscr st' = stdscr st
         ∧ initial_load st' = false ∧ 0 ≤ cursor_display_line st'.
Proof.
  intros (_ & Hcw & _) Hlen He Hs Hload Hcur.
  destruct (reflow_returns st0) as (st' & Hrun & Hcur').
  - by rewrite (content_width_stdscr st st0).
  - rewrite He. intros ->. unfold Py.len in Hlen. simpl in Hlen. lia.
  - done.
  - exists st'. split; [done|].
    apply reflow_Ret in Hrun as ((Hs' & _ & Hl' & _) & He' & _).
    rewrite He' by done. repeat split; congruence.
Qed.

Lemma handle_insert_returns char st :
  ready st → ∃ st', handle_insert char st = Ret st'.
Proof.
  intros Hready.
  destruct (ready_line st Hready) as (e & off & l & entry & Hline & He & Hentry).
  pose proof Hready as (Hload & _ & Hcur & _).
  unfold handle_insert. cbv zeta. simpl display_lines. simpl cursor_display_line.
  simpl entries. rewrite Hline, Ret_bind, Hentry, Ret_bind. simpl cursor_field.
  destruct (cursor_field st).
  - edestruct (setitem_returns (entries st) e) as (es & -> & Hlen); [done|].
    rewrite Ret_bind.
    edestruct (reflow_edited st es) as (st' & -> & _); try done; [lia|]. eauto.
  - edestruct (setitem_returns (entries st) e) as (es & -> & Hlen); [done|].
    rewrite Ret_bind.
    edestruct (reflow_edited st es) as (st' & -> & _); try done; [lia|].
    rewrite Ret_bind. apply set_cursor_for_content_returns.
Qed.

Lemma handle_backspace_returns st :
  ready st → ∃ st', handle_backspace st = Ret st'.
Proof.
  intros Hready.
  destruct (ready_line st Hready) as (e & off & l & entry & Hline & He & Hentry).
  pose proof Hready as (Hload & _ & Hcur & _ & Hlt & _).
  unfold handle_backspace, backspace_content. cbv zeta.
  simpl display_lines. simpl cursor_display_line. simpl entries.
  simpl cursor_field. simpl cursor_pos.
  destruct (cursor_field st).
  - rewrite Hline, Ret_bind, Hentry, Ret_bind.
    destruct (cursor_pos st >? 0).
    + edestruct (setitem_returns (entries st) e) as (es & -> & Hlen); [done|].
      rewrite !Ret_bind.
      edestruct (reflow_edited st es) as (st' & -> & _); try done; [lia|]. eauto.
    + rewrite Ret_bind.
      edestruct (reflow_edited st (entries st)) as (st' & -> & _); try done; [lia|].
      eauto.
  - rewrite Hline, Ret_bind, Hentry, Ret_bind.
    set (scan := if (cursor_pos st =? 0) && (off >? 0) then _ else _).
    assert (∃ found, scan = Ret found) as (found & ->).
    { unfold scan. destruct (_ && _); [|eauto].
      edestruct (last_line_before_returns (display_lines st) e
                   (Z.to_nat (cursor_display_line st))) as (found & -> & _);
        [unfold Py.len in Hlt; lia|eauto]. }
    rewrite Ret_bind. destruct found as [[i c]|]; [eauto|].
    set (join := if (cursor_pos st =? 0) && (off =? 0) && (e >? 0) then _ else _).
    assert (∃ joined, join = Ret joined) as (joined & ->).
    { unfold join. destruct (_ && _ && _) eqn:Hcond; [|eauto].
      apply andb_true_iff in Hcond as [_ Hpos]. apply Z.gtb_lt in Hpos.
      edestruct (getitem_returns (entries st) (e - 1)) as (prev & ->); [lia|].
      rewrite Ret_bind. destruct (_ <=? _); [|eauto].
      edestruct (setitem_returns (entries st) (e - 1)) as (es & -> & Hlen); [lia|].
      rewrite Ret_bind.
      edestruct (pop_returns es e) as (es' & -> & Hlen'); [lia|].
      rewrite Ret_bind.
      edestruct (reflow_edited st es') as (st' & -> & _); try done; [lia|].
      rewrite Ret_bind.
      edestruct (set_cursor_for_content_returns st') as (st'' & ->).
      rewrite Ret_bind. eauto. }
    rewrite Ret_bind. destruct joined; [eauto|].
    destruct (_ >? 0); [|eauto].
    edestruct (setitem_returns (entries st) e) as (es & -> & Hlen); [done|].
    rewrite Ret_bind.
    edestruct (reflow_edited st es) as (st' & -> & _); try done; [lia|].
    rewrite Ret_bind. apply set_cursor_for_content_returns.
Qed.

Lemma split_entry_at_returns entries entry_idx offset :
  0 ≤ entry_idx < Py.len entries →
  ∃ new_entries,
    split_entry_at entries entry_idx offset = Ret new_entries
    ∧ Py.len new_entries = Py.len entries + 1.
Proof.
  intros He. unfold split_entry_at.
  destruct (getitem_returns entries entry_idx He) as (entry & ->).
  rewrite Ret_bind. cbv zeta.
  edestruct (setitem_returns entries entry_idx) as (es & -> & Hlen); [done|].
  rewrite Ret_bind. eexists. split; [done|]. by rewrite len_insert, Hlen.
Qed.

Lemma swap_entries_returns entries i j :
  0 ≤ i < Py.len entries → 0 ≤ j < Py.len entries →
  ∃ new_entries,
    swap_entries entries i j = Ret new_entries
    ∧ Py.len new_entries = Py.len entries.
Proof.
  intros Hi Hj. unfold swap_entries.
  destruct (getitem_returns entries j Hj) as (ej & ->). rewrite Ret_bind.
  destruct (getitem_returns entries i Hi) as (ei & ->). rewrite Ret_bind.
  edestruct (setitem_returns entries i) as (es & -> & Hlen); [done|].
  rewrite Ret_bind.
  edestruct (setitem_returns es j) as (es' & -> & Hlen'); [lia|].
  eexists. split; [done|]. lia.
Qed.

Lemma split_line_at_cursor_returns st :
  ready st → ∃ st', split_line_at_cursor (save_undo_state st) = Ret st'.
Proof.
  intros Hready.
  destruct (ready_line st Hready) as (e & off & l & entry & Hline & He & Hentry).
  pose proof Hready as (Hload & _ & Hcur & _).
  unfold split_line_at_cursor. cbv zeta.
  simpl display_lines. simpl cursor_display_line. simpl entries. simpl cursor_field.
  rewrite Hline, Ret_bind, Hentry, Ret_bind.
  destruct (cursor_field st); [eauto|].
  edestruct (setitem_returns (entries st) e) as (es & -> & Hlen); [done|].
  rewrite Ret_bind.
  match goal with
  | |- context [reflow ?s] =>
      edestruct (reflow_edited st (entries s) s) as (st' & -> & _)
  end; try done; [simpl; rewrite len_insert; lia|].
  rewrite Ret_bind. eauto.
Qed.

Lemma move_entry_up_returns st :
  ready st → ∃ st', move_entry_up st = Ret st'.
Proof.
  intros Hready.
  destruct (ready_line st Hready) as (e & off & l & entry & Hline & He & Hentry).
  pose proof Hready as (Hload & _ & Hcur & _).
  unfold move_entry_up, move_entry_up_body. cbv zeta.
  simpl display_lines. simpl cursor_display_line.
  rewrite Hline, Ret_bind.
  destruct (off >? 0).
  - simpl entries.
    destruct (split_entry_at_returns (entries st) e off He) as (es & -> & Hlen).
    rewrite !Ret_bind. destruct (Z.leb_spec (e + 1) 0); [lia|]. simpl entries.
    edestruct (swap_entries_returns es (e + 1) (e + 1 - 1)) as (es' & -> & Hlen');
      [lia|lia|].
    rewrite Ret_bind.
    edestruct (reflow_edited st es') as (st' & -> & _); try done; [lia|].
    rewrite Ret_bind. eauto.
  - rewrite Ret_bind. destruct (Z.leb_spec e 0); [eauto|]. simpl entries.
    edestruct (swap_entries_returns (entries st) e (e - 1)) as (es' & -> & Hlen');
      [lia|lia|].
    rewrite Ret_bind.
    edestruct (reflow_edited st es') as (st' & -> & _); try done; [lia|].
    rewrite Ret_bind. eauto.
Qed.

Lemma move_entry_down_returns st :
  ready st → ∃ st', move_entry_down st = Ret st'.
Proof.
  intros Hready.
  destruct (ready_line st Hready) as (e & off & l & entry & Hline & He & Hentry).
  pose proof Hready as (Hload & _ & Hcur & _).
  unfold move_entry_down, move_entry_down_body. cbv zeta.
  simpl display_lines. simpl cursor_display_line.
  rewrite Hline, Ret_bind.
  destruct (off >? 0).
  - simpl entries.
    destruct (split_entry_at_returns (entries st) e off He) as (es & -> & Hlen).
    rewrite Ret_bind.
    edestruct (reflow_edited st es) as (st1 & -> & He1 & Hs1 & Hl1 & Hc1);
      try done; [lia|].
    rewrite !Ret_bind.
    assert (entries (follow_entry st1 (e + 1)) = es
            ∧ stdscr (follow_entry st1 (e + 1)) = stdscr st
            ∧ initial_load (follow_entry st1 (e + 1)) = false
            ∧ 0 ≤ cursor_display_line (follow_entry st1 (e + 1)))
      as (He2 & Hs2 & Hl2 & Hc2).
    { unfold follow_entry. destruct (first_line_of _ _ _) as [i|] eqn:Hi; simpl;
        [|done]. apply first_line_of_range in Hi. done. }
    set (st2 := follow_entry st1 (e + 1)) in *. clearbody st2.
    destruct (Z.geb_spec (e + 1) (Py.len (entries st2) - 1)); [eauto|].
    rewrite He2 in *.
    edestruct (swap_entries_returns es (e + 1) (e + 1 + 1)) as (es' & -> & Hlen');
      [lia|lia|].
    rewrite Ret_bind.
    edestruct (reflow_edited st es' (with_entries es' st2)) as (st' & -> & _);
      try done; [lia|].
    rewrite Ret_bind. eauto.
  - rewrite Ret_bind. simpl entries.
    destruct (Z.geb_spec e (Py.len (entries st) - 1)); [eauto|].
    edestruct (swap_entries_returns (entries st) e (e + 1)) as (es' & -> & Hlen');
      [lia|lia|].
    rewrite Ret_bind.
    edestruct (reflow_edited st es') as (st' & -> & _); try done; [lia|].
    rewrite Ret_bind. eauto.
Qed.

Lemma clear_speaker_returns st :
  ready st → ∃ st', clear_speaker st = Ret st'.
Proof.
  intros Hready.
  destruct (ready_line st Hready) as (e & off & l & entry & Hline & He & Hentry).
  pose proof Hready as (Hload & _ & Hcur & _).
  unfold clear_speaker. cbv zeta.
  simpl display_lines. simpl cursor_display_line. simpl entries.
  rewrite Hline, Ret_bind, Hentry, Ret_bind.
  edestruct (setitem_returns (entries st) e) as (es & -> & Hlen); [done|].
  rewrite Ret_bind.
  edestruct (reflow_edited st es) as (st' & -> & _); try done; [lia|]. eauto.
Qed.

(** On a ready state no operation raises or hangs. *)
Lemma perform_returns op st : ready st → ∃ st', perform op st = Ret st'.
Proof.
  intros Hready. destruct op; simpl.
  - by apply handle_insert_returns.
  - by apply handle_backspace_returns.
  - by apply split_line_at_cursor_returns.
  - by apply move_entry_up_returns.
  - by apply move_entry_down_returns.
  - by apply clear_speaker_returns.
Qed.




(** * Sessions as [__init__] leaves them *)

Lemma reflow_cursor_nonneg st st' :
  reflow st = Ret st' → 0 ≤ cursor_display_line st → 0 ≤ cursor_display_line st'.
Proof.
  unfold reflow. intros H Hcur.
  apply bind_Ret in H as (st1 & H1 & H).
  assert (cursor_display_line st1 = cursor_display_line st) as Hc1
    by (destruct (initial_load st); unravel H1; by subst).
  clear H1. apply bind_Ret in H as (lines & _ & H). cbv zeta in H.
  set (st2 := if cursor_display_line (with_display_lines lines st1) >=? _
              then _ else _) in H.
  apply bind_Ret in H as (cur_len & Hlen & H). injection H as H.
  assert (0 ≤ cursor_display_line st2) as Hc2.
  { unfold get_current_field_length in Hlen.
    apply bind_Ret in Hlen as (line & Hline & _).
    revert Hline. unfold st2. simpl.
    destruct (Z.geb_spec (cursor_display_line st1) (Py.len lines)); simpl; [|lia].
    intros Hline. apply getitem_elem_of in Hline.
    destruct lines; [by apply elem_of_nil in Hline|].
    unfold Py.len. simpl length. lia. }
  clearbody st2. destruct (cursor_pos st2 >? cur_len); by subst.
Qed.

(** What [__init__] establishes when it returns. *)
Lemma init_ready screen filename data st :
  init screen filename data = Ret st →
  initial_load st = false
  ∧ reflow st = Ret st
  ∧ undo_stack st = [snapshot st]
  ∧ stdscr st = screen
  ∧ (24 ≤ screen.2 → ready st).
Proof.
  unfold init. cbv zeta.
  match goal with |- context [reflow ?s] => set (st0 := s) end.
  assert (undo_stack st0 = [] ∧ cursor_display_line st0 = 0 ∧ stdscr st0 = screen)
    as (Hstack & Hcur & Hscr)
    by (unfold st0; destruct filename as [[|]|], data; done).
  clearbody st0. intros H. apply bind_Ret in H as (st1 & Hrun & H).
  injection H as <-.
  pose proof (reflow_cursor_nonneg _ _ Hrun ltac:(lia)) as Hcur1.
  apply reflow_Ret in Hrun
    as ((Hs & _ & _ & Hu & _) & _ & _ & _ & _ & _ & _ & Hsettled).
  assert (settled (save_undo_state (with_initial_load false st1))) as Hsettled'.
  { destruct Hsettled as (Hd & Hlt & cur_len & Hlen & Hpos).
    split; [exact Hd|]. split; [exact Hlt|]. exists cur_len. split; [exact Hlen|done]. }
  split; [done|]. split; [by apply settled_reflow|].
  split. { simpl. unfold pushed. simpl. by rewrite Hu, Hstack. }
  split. { simpl. congruence. }
  intros Hwide. split; [done|]. split; [|done].
  unfold content_width. simpl. rewrite Hs, Hscr. destruct screen. simpl in *.
  unfold ln_width, sp_width, col_sep. lia.
Qed.

(** Two operations and one [undo]: the state of before the first operation
    comes back, so the [undo] has reverted both. *)
Lemma undo_after_two_operations st op1 op2 st1 st2 :
  initial_load st = false →
  reflow st = Ret st →
  last (undo_stack st) = Some (snapshot st) →
  perform op1 st = Ret st1 →
  perform op2 st1 = Ret st2 →
  ∃ st3,
    undo st2 = Ret st3
    ∧ entries st3 = entries st
    ∧ cursor_display_line st3 = cursor_display_line st
    ∧ cursor_field st3 = cursor_field st
    ∧ cursor_pos st3 = cursor_pos st
    ∧ scroll_offset st3 = scroll_offset st.
Proof.
  intros Hload Hfixed Htop Hop1 Hop2.
  apply reflow_fixed_settled in Hfixed as Hsettled.
  apply perform_frame in Hop1 as (Hscr1 & _ & Hload1 & Hstack1 & _).
  apply perform_frame in Hop2 as (Hscr2 & _ & Hload2 & Hstack2 & _).
  simpl in *.
  destruct (pushed_keeps_top st _ Htop) as (below & Hpushed & _).
  assert (last (undo_stack st1) = Some (snapshot st)) as Htop1.
  { rewrite Hstack1. unfold pushed.
    by destruct (_ >=? 100); rewrite last_snoc. }
  destruct (undo_restores_top st1 (snapshot st) st2) as (below1 & -> & _);
    [congruence|done|done|].
  set (st_r := with_scroll_offset _ _).
  rewrite (reflow_like_settled st st_r Hsettled); try done; [|simpl; congruence..].
  rewrite Ret_bind. eexists. split; [done|]. by repeat split.
Qed.

(** * More on wrap_text *)

Lemma wrap_loop_lengths text m :
  1 ≤ m → ∀ fuel start lines result,
  0 ≤ start →
  wrap_loop fuel text m start lines = Ret result →
  ∃ segs, result = lines ++ segs ∧ Forall (λ seg, 1 ≤ Py.len seg.2 ≤ m) segs.
Proof.
  intros Hm. induction fuel as [|fuel IH]; intros start lines result Hstart Hrun;
    [done|].
  simpl in Hrun. destruct (Z.ltb_spec start (Py.len text)) as [Hlt|Hge].
  - destruct (Z.leb_spec (Py.len text - start) m) as [Hfit|Hlong].
    + injection Hrun as <-. eexists. split; [done|].
      constructor; [|constructor]. simpl.
      rewrite slice_from_inside by lia. unfold Py.len in *.
      rewrite length_drop. lia.
    + set (segment := Py.slice text start (start + m + 1)) in *.
      assert (Py.len segment = m + 1) as Hseg
        by (unfold segment; rewrite len_slice_inside; lia).
      destruct (rfind_cases segment " "%char) as [[Hr _]|[Hr _]].
      * rewrite Hr in Hrun. simpl in Hrun.
        apply IH in Hrun as (segs & -> & Hall); [|lia].
        eexists (_ :: segs). rewrite <- app_assoc. split; [done|].
        constructor; [|done]. simpl. rewrite len_slice_inside; lia.
      * destruct (Z.eqb_spec (Py.rfind segment " ") (-1)) as [?|_]; [lia|].
        destruct (Z.eqb_spec (Py.rfind segment " ") 0) as [H0|Hpos];
          simpl in Hrun.
        -- apply IH in Hrun as (segs & -> & Hall); [|lia].
           eexists (_ :: segs). rewrite <- app_assoc. split; [done|].
           constructor; [|done]. simpl. rewrite len_slice_inside; lia.
        -- apply IH in Hrun as (segs & -> & Hall); [|lia].
           eexists (_ :: segs). rewrite <- app_assoc. split; [done|].
           constructor; [|done]. simpl. rewrite len_slice_inside; lia.
  - injection Hrun as <-. exists []. by rewrite app_nil_r.
Qed.

(** With a width of at least 1, [wrap_text] returns segments of at least one
    character and at most [min(width, 50)] characters each. *)
Theorem wrap_text_segment_lengths (text : str) (width : Z) :
  1 ≤ width →
  ∃ segs,
    wrap_text text width = Ret segs
    ∧ Forall (λ seg, 1 ≤ Py.len seg.2 ≤ Z.min width 50) segs.
Proof.
  intros Hw. destruct (wrap_text_tiles text width Hw) as (segs & Hrun & _).
  exists segs. split; [done|].
  apply wrap_loop_lengths in Hrun as (segs' & -> & Hall); [done|lia|lia].
Qed.

Lemma wrap_text_segment_lengths_witness :
  1 ≤ 10
  ∧ ∃ segs,
      wrap_text (chars "one two three four five") 10 = Ret segs
      ∧ Forall (λ seg, 1 ≤ Py.len seg.2 ≤ Z.min 10 50) segs.
Proof.
  split; [lia|].
  apply (wrap_text_segment_lengths (chars "one two three four five") 10). lia.
Defined.

(** A text no longer than [min(width, 50)] is shown on one line: the
    wrapping step of [reflow] yields the single segment [(0, text)]. *)
Theorem wrapped_lines_short (text : str) (width : Z) :
  Py.len text ≤ Z.min width 50 →
  wrapped_lines text width = Ret [(0, text)].
Proof.
  intros Hshort. unfold wrapped_lines, wrap_text. simpl.
  destruct (Z.ltb_spec 0 (Py.len text)) as [Hne|He].
  - rewrite Z.sub_0_r. destruct (Z.leb_spec (Py.len text) (Z.min width 50)); [|lia].
    simpl. by rewrite slice_from_inside by lia.
  - destruct text; [done|]. unfold Py.len in He. simpl in He. lia.
Qed.

Lemma wrapped_lines_short_witness :
  Py.len (chars "Hello") ≤ Z.min 10 50
  ∧ wrapped_lines (chars "Hello") 10 = Ret [(0, chars "Hello")].
Proof.
  split; [vm_compute; discriminate|].
  apply (wrapped_lines_short (chars "Hello") 10). vm_compute. discriminate.
Defined.

(** With a width of 0 or less, [wrap_text] does not return on any text that
    is not empty: however many times the loop body runs, the loop has not
    exited. *)
Theorem wrap_text_never_returns (text : str) (width : Z) :
  width ≤ 0 → text ≠ [] →
  wrap_text text width = Raise Hang
  ∧ ∀ fuel, wrap_loop fuel text (Z.min width 50) 0 [] = Raise Hang.
Proof.
  intros Hw Htext. split; [by apply wrap_text_hangs|].
  intros fuel. apply wrap_loop_hangs; [lia|].
  destruct text; [done|]. unfold Py.len. simpl. lia.
Qed.

Lemma wrap_text_never_returns_witness :
  -3 ≤ 0 ∧ chars "ab cd" ≠ []
  ∧ wrap_text (chars "ab cd") (-3) = Raise Hang
  ∧ ∀ fuel, wrap_loop fuel (chars "ab cd") (Z.min (-3) 50) 0 [] = Raise Hang.
Proof.
  split; [lia|]. split; [discriminate|].
  apply (wrap_text_never_returns (chars "ab cd") (-3)); [lia|discriminate].
Defined.

(** * More on combine_same_speaker_entries *)

Lemma without_spaces_app s t :
  without_spaces (s ++ t) = without_spaces s ++ without_spaces t.
Proof. apply filter_app. Qed.

Lemma without_spaces_combined a b :
  without_spaces (text (combined a b))
  = without_spaces (text a) ++ without_spaces (text b).
Proof.
  rewrite combined_eq. simpl. rewrite !without_spaces_app.
  by destruct (decide (ends_open (text a))).
Qed.

Lemma absorb_keeps current rest :
  without_spaces (all_text (absorb current rest))
  = without_spaces (all_text (current :: rest))
  ∧ (length (absorb current rest) ≤ length (current :: rest))%nat
  ∧ map speaker (absorb current rest) `sublist_of` map speaker (current :: rest).
Proof.
  revert current. induction rest as [|next_entry rest IH]; intros current.
  - done.
  - simpl. destruct (mergeable current next_entry) eqn:Hm.
    + destruct (IH (combined current next_entry)) as (Ht & Hl & Hs).
      split; [|split].
      * rewrite Ht. cbn [all_text].
        rewrite !without_spaces_app, without_spaces_combined.
        by rewrite <- app_assoc.
      * simpl in Hl. lia.
      * etrans; [exact Hs|]. cbn [map].
        assert (speaker (combined current next_entry) = speaker current) as ->
          by (by rewrite combined_eq).
        apply sublist_skip, sublist_cons, reflexivity.
    + destruct (IH next_entry) as (Ht & Hl & Hs).
      split; [|split].
      * cbn [all_text] in *. rewrite !without_spaces_app in *. by rewrite Ht.
      * simpl in *. lia.
      * cbn [map] in *. by apply sublist_skip.
Qed.

(** The merge pass loses no text and invents none: the characters other than
    spaces, read through all entries in order, are the same before and
    after; the list does not grow; and the speakers of the result are the
    speakers of the input in the same order, some of them left out. *)
Theorem combine_keeps_text (entries : list DialogueEntry) :
  ∃ merged,
    combine_same_speaker_entries entries = Ret merged
    ∧ without_spaces (all_text merged) = without_spaces (all_text entries)
    ∧ (length merged ≤ length entries)%nat
    ∧ map speaker merged `sublist_of` map speaker entries.
Proof.
  rewrite combine_same_speaker_entries_absorb. eexists. split; [done|].
  destruct entries as [|current rest]; [done|]. apply absorb_keeps.
Qed.

Lemma absorb_merged_short rest :
  ∀ current,
  Forall (λ entry, entry = current ∨ entry ∈ rest ∨ Py.len (text entry) ≤ 150)
    (absorb current rest).
Proof.
  induction rest as [|next_entry rest IH]; intros current; simpl.
  - constructor; [by left|constructor].
  - destruct (mergeable current next_entry) eqn:Hm.
    + eapply Forall_impl; [apply IH|]. simpl. intros entry [->|[Hin|Hshort]].
      * right. right. apply mergeable_eligible in Hm as (_ & _ & _ & _ & _ & Hlen).
        rewrite combined_eq. simpl. rewrite !len_app.
        destruct (decide _); unfold Py.len in *; simpl length; lia.
      * right. left. by right.
      * by right; right.
    + constructor; [by left|].
      eapply Forall_impl; [apply IH|]. simpl. intros entry [->|[Hin|Hshort]].
      * right. left. by left.
      * right. left. by right.
      * by right; right.
Qed.

(** Every entry the merge pass returns is an entry of the input or has a
    text of at most 150 characters: a merge never makes an entry longer than
    that. *)
Theorem combine_merged_short (entries : list DialogueEntry) :
  ∃ merged,
    combine_same_speaker_entries entries = Ret merged
    ∧ Forall (λ entry, entry ∈ entries ∨ Py.len (text entry) ≤ 150) merged.
Proof.
  rewrite combine_same_speaker_entries_absorb. eexists. split; [done|].
  destruct entries as [|current rest]; [constructor|].
  eapply Forall_impl; [apply absorb_merged_short|]. simpl.
  intros entry [->|[Hin|Hshort]]; [left; by left|left; by right|by right].
Qed.

(** The merge pass returns its input unchanged exactly when no two
    neighbours pass the merge guard. *)
Theorem combine_unchanged_iff_stable (entries : list DialogueEntry) :
  combine_same_speaker_entries entries = Ret entries ↔ stable entries.
Proof.
  split; [|apply combine_of_stable].
  intros Hrun. destruct (combine_stable entries) as (merged & Hrun' & Hstable).
  rewrite Hrun in Hrun'. by injection Hrun' as <-.
Qed.

(** * More on load_file, save_file and __init__ *)

Lemma parse_line_storable entry :
  storable entry →
  parse_line (speaker entry ++ [TAB] ++ text entry ++ [LF]) = entry.
Proof.
  intros (Hst & Hsl & _ & Htl & _). unfold parse_line.
  replace (speaker entry ++ [TAB] ++ text entry ++ [LF])
    with ((speaker entry ++ TAB :: text entry) ++ [LF])
    by (by rewrite <- app_assoc).
  rewrite rstrip_newline_line.
  - rewrite split_tab_line by done. by destruct entry.
  - rewrite elem_of_app, elem_of_cons. intros [?|[?|?]]; done.
Qed.

Lemma written_storable_no_CR entries : Forall storable entries → CR ∉ written entries.
Proof.
  induction 1 as [|entry entries (_ & _ & Hs & _ & Ht) _ IH]; simpl.
  - apply not_elem_of_nil.
  - repeat (rewrite elem_of_app || rewrite elem_of_cons).
    intros [H|[H|[H|[H|H]]]]; try done; discriminate H.
Qed.

Lemma readlines_written_storable entries :
  Forall storable entries →
  readlines [] (written entries)
  = map (λ entry, speaker entry ++ [TAB] ++ text entry ++ [LF]) entries.
Proof.
  induction 1 as [|entry entries (_ & Hs & _ & Ht & _) _ IH]; [done|].
  simpl.
  replace (speaker entry ++ TAB :: text entry ++ LF :: written entries)
    with ((speaker entry ++ TAB :: text entry) ++ LF :: written entries)
    by (by rewrite <- app_assoc).
  rewrite readlines_line.
  - rewrite IH. simpl. by rewrite <- app_assoc.
  - rewrite elem_of_app, elem_of_cons. intros [?|[?|?]]; done.
Qed.

(** What [save_file] writes, [load_file] reads back as the same entries,
    provided no speaker holds a tab and no field a line feed or a carriage
    return.  Tabs in a text come back unchanged: a line is cut at its first
    tab only. *)
Theorem load_file_reads_back (entries : list DialogueEntry) :
  Forall storable entries → loaded (written entries) = entries.
Proof.
  intros Hok. unfold loaded.
  rewrite universal_newlines_no_CR by by apply written_storable_no_CR.
  rewrite readlines_written_storable by done.
  induction Hok as [|entry entries Hentry _ IH]; [done|].
  simpl. f_equal; [|done]. by apply parse_line_storable.
Qed.

Lemma load_file_reads_back_witness :
  Forall storable
    [mkEntry (chars "A") (chars "one" ++ [TAB] ++ chars "two"); mkEntry (chars "B") []]
  ∧ loaded (written
      [mkEntry (chars "A") (chars "one" ++ [TAB] ++ chars "two"); mkEntry (chars "B") []])
    = [mkEntry (chars "A") (chars "one" ++ [TAB] ++ chars "two"); mkEntry (chars "B") []].
Proof.
  assert (Forall storable
            [mkEntry (chars "A") (chars "one" ++ [TAB] ++ chars "two");
             mkEntry (chars "B") []]) as Hok
    by (apply (bool_decide_unpack _); vm_compute; reflexivity).
  split; [exact Hok|]. exact (load_file_reads_back _ Hok).
Defined.

Lemma split_tab_none line : TAB ∉ line → split_tab line = (line, None).
Proof.
  induction line as [|c line IH]; [done|]. rewrite not_elem_of_cons.
  intros [Hc Hline]. simpl.
  destruct (bool_decide_reflect (c = TAB)); [congruence|]. by rewrite IH.
Qed.

(** A file whose lines hold no tab loads as one entry for each line, with
    the line as the speaker and an empty text. *)
Theorem load_file_lines_without_tab (lines : list str) :
  Forall (λ line, (TAB ∉ line) ∧ (LF ∉ line) ∧ (CR ∉ line)) lines →
  loaded (tabless_file lines) = map (λ line, mkEntry line []) lines.
Proof.
  intros Hok. unfold loaded.
  assert (CR ∉ tabless_file lines) as Hcr.
  { induction Hok as [|line lines (_ & _ & Hc) _ IH]; simpl.
    - apply not_elem_of_nil.
    - repeat (rewrite elem_of_app || rewrite elem_of_cons).
      intros [H|[H|H]]; try done; discriminate H. }
  rewrite universal_newlines_no_CR by done. clear Hcr.
  induction Hok as [|line lines (Ht & Hl & _) _ IH]; [done|].
  simpl. rewrite readlines_line by done. simpl. f_equal; [|exact IH].
  unfold parse_line. rewrite rstrip_newline_line by done.
  by rewrite split_tab_none.
Qed.

Lemma load_file_lines_without_tab_witness :
  Forall (λ line, (TAB ∉ line) ∧ (LF ∉ line) ∧ (CR ∉ line)) [chars "Ann"; chars "Bob says hi"]
  ∧ loaded (tabless_file [chars "Ann"; chars "Bob says hi"])
    = map (λ line, mkEntry line []) [chars "Ann"; chars "Bob says hi"].
Proof.
  assert (Forall (λ line, (TAB ∉ line) ∧ (LF ∉ line) ∧ (CR ∉ line))
            [chars "Ann"; chars "Bob says hi"]) as Hok
    by (apply (bool_decide_unpack _); vm_compute; reflexivity).
  split; [exact Hok|]. exact (load_file_lines_without_tab _ Hok).
Defined.

(** A session on a file that is empty or cannot be opened does not start:
    [load_file] leaves no entry, and the first [reflow] raises [IndexError]
    when it looks up the line under the cursor. *)
Theorem init_without_entries (screen : Z * Z) (path : string) :
  path ≠ ""%string →
  init screen (Some path) None = Raise IndexError
  ∧ init screen (Some path) (Some []) = Raise IndexError.
Proof.
  intros Hpath. destruct path as [|c path]; [done|]. destruct screen. done.
Qed.

Lemma init_without_entries_witness :
  "notes.tsv"%string ≠ ""%string
  ∧ init (24, 80) (Some "notes.tsv"%string) None = Raise IndexError
  ∧ init (24, 80) (Some "notes.tsv"%string) (Some []) = Raise IndexError.
Proof.
  split; [discriminate|].
  apply (init_without_entries (24, 80) "notes.tsv"). discriminate.
Defined.

(** Without a file the session starts on a terminal of any size, with the
    single entry ("Speaker", "") shown on one empty line, the cursor at its
    start and one snapshot on the undo stack. *)
Theorem init_without_file (screen : Z * Z) (data : option str) :
  ∃ st,
    init screen None data = Ret st
    ∧ entries st = [mkEntry (chars "Speaker") []]
    ∧ display_lines st = [(0, 0, [])]
    ∧ cursor_display_line st = 0
    ∧ cursor_field st = FContent
    ∧ cursor_pos st = 0
    ∧ undo_stack st = [snapshot st].
Proof. destruct screen. eexists. split; [reflexivity|]. by repeat split. Qed.

(** * More on reflow *)

Lemma tiles_slices text segs :
  ∀ pos, 0 ≤ pos → tiles text pos segs →
  Forall (λ seg, 0 ≤ seg.1 ∧ seg.2 = Py.slice text seg.1 (seg.1 + Py.len seg.2)) segs.
Proof.
  induction segs as [|[o line] rest IH]; intros pos Hpos; simpl; [constructor|].
  intros (-> & Hline & Hnext & Hrest). constructor; [done|].
  apply (IH (start_of rest (Py.len text))); [|done].
  pose proof (len_nonneg line). destruct Hnext as [->|[-> _]]; lia.
Qed.

Lemma wrapped_lines_faithful text cw :
  1 ≤ cw →
  ∃ line rest,
    wrapped_lines text cw = Ret ((0, line) :: rest)
    ∧ faithful_segments text ((0, line) :: rest).
Proof.
  intros Hcw. destruct (wrap_text_tiles text cw Hcw) as (segs & Hrun & Hok).
  unfold wrapped_lines. rewrite Hrun, Ret_bind.
  destruct segs as [|[o line] rest].
  - exists [], []. split; [done|].
    destruct Hok as (_ & Htiles & _). simpl in Htiles.
    destruct text; [|done]. repeat split; simpl; auto; repeat constructor.
  - pose proof Hok as (_ & (-> & _) & _). eauto.
Qed.

Lemma sorted_offsets_line_before (entry_idx : Z) (segs : list (Z * str)) :
  StronglySorted Z.lt segs.*1 →
  StronglySorted line_before
    (map (λ '(offset, line), (entry_idx, offset, line)) segs).
Proof.
  induction segs as [|[o l] segs IH]; simpl; [constructor|].
  intros Hs. apply StronglySorted_cons in Hs as [Hall Hs].
  constructor; [by apply IH|].
  apply Forall_fmap, Forall_forall. intros [o' l'] Hin. unfold compose.
  right. split; [done|]. simpl.
  rewrite Forall_fmap, Forall_forall in Hall. by apply (Hall (o', l')).
Qed.

(** The display of the entries from index [i] on, at a width of at least 1. *)
Lemma display_from_structure entries cw :
  1 ≤ cw → ∀ i lines,
  display_from entries cw i = Ret lines →
  (∀ k entry, entries !! k = Some entry →
     ∃ line, (i + Z.of_nat k, 0, line) ∈ lines)
  ∧ Forall (λ l, ∃ k entry,
              l.1.1 = i + Z.of_nat k ∧ entries !! k = Some entry
              ∧ 0 ≤ l.1.2
              ∧ l.2 = Py.slice (text entry) l.1.2 (l.1.2 + Py.len l.2)) lines
  ∧ StronglySorted line_before lines.
Proof.
  intros Hcw. induction entries as [|entry entries IH]; intros i lines Hrun.
  - injection Hrun as <-. split; [done|]. split; constructor.
  - simpl in Hrun.
    destruct (wrapped_lines_faithful (text entry) cw Hcw)
      as (line & rest & Hw & Hsorted & Htiles & _).
    rewrite Hw, Ret_bind in Hrun.
    apply bind_Ret in Hrun as (lines' & Hrest & Hrun). injection Hrun as <-.
    pose proof (display_from_indices _ _ _ _ Hrest) as Hidx.
    destruct (IH _ _ Hrest) as (Hfirst & Hslices & Hsort).
    split; [|split].
    + intros [|k] e Hk; simpl in Hk.
      * exists line. rewrite Z.add_0_r. simpl. apply elem_of_cons. by left.
      * destruct (Hfirst k e Hk) as (l & Hl). exists l.
        replace (i + Z.of_nat (S k)) with (i + 1 + Z.of_nat k) by lia.
        simpl. apply elem_of_cons. right. apply elem_of_app. by right.
    + apply (Forall_app _
               (map (λ '(offset, line), (i, offset, line)) ((0, line) :: rest)) lines').
      split.
      * apply Forall_fmap, Forall_forall. intros [o l] Hin. unfold compose. simpl.
        exists 0%nat, entry. split; [lia|]. split; [done|].
        apply tiles_slices in Htiles; [|done].
        eapply Forall_forall in Htiles; [|exact Hin]. done.
      * eapply Forall_impl; [exact Hslices|]. simpl.
        intros l (k & e & Hk & He & Hrest'). exists (S k), e.
        split; [lia|]. done.
    + apply (StronglySorted_app_2 _
               (map (λ '(offset, line), (i, offset, line)) ((0, line) :: rest)) lines');
        [|by apply sorted_offsets_line_before|done].
      intros a b Ha Hb. left.
      apply list_elem_of_fmap in Ha as ([o l] & -> & _). simpl.
      eapply Forall_forall in Hidx; [|exact Hb]. simpl in Hidx. lia.
Qed.

(** After [reflow], on a terminal at least 24 columns wide: every entry has
    a display line that starts at offset 0; every display line shows the
    characters of its entry's text from its offset on; and the lines come in
    the order of the entries and, within an entry, of their offsets. *)
Theorem reflow_display (st st' : Editor) :
  1 ≤ content_width st →
  reflow st = Ret st' →
  (∀ k entry, entries st' !! k = Some entry →
     ∃ line, (Z.of_nat k, 0, line) ∈ display_lines st')
  ∧ Forall (λ l, ∃ k entry,
              l.1.1 = Z.of_nat k ∧ entries st' !! k = Some entry
              ∧ 0 ≤ l.1.2
              ∧ l.2 = Py.slice (text entry) l.1.2 (l.1.2 + Py.len l.2))
      (display_lines st')
  ∧ StronglySorted line_before (display_lines st').
Proof.
  intros Hcw Hrun.
  apply reflow_Ret in Hrun as ((Hs & _) & _ & _ & Hd & _).
  rewrite <- (content_width_stdscr st st' Hs) in Hcw.
  destruct (display_from_structure _ _ Hcw _ _ Hd) as (H1 & H2 & H3).
  split; [exact H1|]. split; [|exact H3].
  eapply Forall_impl; [exact H2|]. simpl.
  intros l (k & e & Hk & H). exists k, e. split; [lia|done].
Qed.

Lemma reflow_display_witness :
  1 ≤ content_width narrow_session
  ∧ reflow narrow_session = Ret narrow_session
  ∧ (∀ k entry, entries narrow_session !! k = Some entry →
       ∃ line, (Z.of_nat k, 0, line) ∈ display_lines narrow_session)
  ∧ Forall (λ l, ∃ k entry,
              l.1.1 = Z.of_nat k ∧ entries narrow_session !! k = Some entry
              ∧ 0 ≤ l.1.2
              ∧ l.2 = Py.slice (text entry) l.1.2 (l.1.2 + Py.len l.2))
      (display_lines narrow_session)
  ∧ StronglySorted line_before (display_lines narrow_session).
Proof.
  assert (1 ≤ content_width narrow_session) as Hw by (vm_compute; discriminate).
  assert (reflow narrow_session = Ret narrow_session) as Hr by (vm_compute; reflexivity).
  split; [exact Hw|]. split; [exact Hr|].
  exact (reflow_display narrow_session narrow_session Hw Hr).
Defined.

(** [reflow] leaves a settled state, and once loading is over a second
    [reflow] changes nothing. *)
Theorem reflow_twice (st st' : Editor) :
  initial_load st = false →
  reflow st = Ret st' →
  settled st' ∧ reflow st' = Ret st'.
Proof.
  intros Hload Hrun.
  apply reflow_Ret in Hrun as ((_ & _ & Hl & _) & _ & _ & _ & _ & _ & _ & Hs).
  split; [done|]. apply settled_reflow; [congruence|done].
Qed.

Lemma reflow_twice_witness :
  ∃ st',
    initial_load (with_cursor_pos 40 (with_cursor_display_line 7 narrow_session)) = false
    ∧ reflow (with_cursor_pos 40 (with_cursor_display_line 7 narrow_session)) = Ret st'
    ∧ settled st' ∧ reflow st' = Ret st'.
Proof.
  eexists. split; [reflexivity|]. split; [vm_compute; reflexivity|].
  apply (reflow_twice (with_cursor_pos 40 (with_cursor_display_line 7 narrow_session)));
    [reflexivity|vm_compute; reflexivity].
Defined.

Lemma display_from_hangs entries cw :
  cw ≤ 0 → Exists (λ entry, text entry ≠ []) entries →
  ∀ i, display_from entries cw i = Raise Hang.
Proof.
  intros Hcw. induction 1 as [entry entries Hne|entry entries _ IH]; intros i; simpl.
  - unfold wrapped_lines. by rewrite wrap_text_hangs.
  - unfold wrapped_lines. destruct (text entry) as [|c t] eqn:Ht.
    + rewrite wrap_text_empty, !Ret_bind. by rewrite IH.
    + by rewrite wrap_text_hangs.
Qed.

(** On a terminal of 23 columns or fewer, [reflow] does not return as soon
    as one entry has a text that is not empty. *)
Theorem reflow_hangs_on_narrow_terminal (st : Editor) :
  initial_load st = false →
  (stdscr st).2 ≤ 23 →
  Exists (λ entry, text entry ≠ []) (entries st) →
  reflow st = Raise Hang.
Proof.
  intros Hload Hnarrow Htext. unfold reflow. rewrite Hload, Ret_bind.
  rewrite display_from_hangs; [done| |done].
  unfold content_width, ln_width, sp_width, col_sep.
  destruct (stdscr st). simpl in *. lia.
Qed.

Lemma reflow_hangs_on_narrow_terminal_witness :
  ∃ st,
    initial_load st = false
    ∧ (stdscr st).2 ≤ 23
    ∧ Exists (λ entry, text entry ≠ []) (entries st)
    ∧ reflow st = Raise Hang.
Proof.
  exists (with_initial_load false
            (with_entries [mkEntry (chars "A") (chars "hello")] (blank (24, 23) None))).
  split; [reflexivity|]. split; [simpl; lia|].
  assert (Exists (λ entry, text entry ≠ [])
            [mkEntry (chars "A") (chars "hello")]) as Ht
    by (constructor; discriminate).
  split; [exact Ht|].
  apply reflow_hangs_on_narrow_terminal; [reflexivity|simpl; lia|exact Ht].
Defined.
